(** * Status and cancellation components of the mobile-mechanic app

    A shallow embedding of two React Native components,
    [src/components/PaymentStatusTracker.js] and
    [src/components/CancelJobModal.js], and the properties of their
    handlers and render functions; then, in the same style, of their
    siblings [JobStatusManager], [MechanicNotes], [RatingReviewForm] and
    [LicensePlateCapture].

    Modelling conventions.
    - A JavaScript string is a [string]; each character stands for one
      code unit below 256.
    - [null]/[undefined] is [None].
    - A handler is a closure over the props and the state of the render that
      created it: it reads those values and never the live store.  What it
      does is a sequence of events (state-setter calls, calls of injected
      callbacks, alerts, console output), so a handler is a value of a writer
      monad with exceptions; the state it leaves is the replay of its setter
      calls.
    - An injected callback is an oracle [respond] from the call to the way it
      settles: [await f(x)] on a rejected promise and a synchronous throw both
      complete abruptly inside [try]. *)

From Stdlib Require Import String Ascii List Bool Arith Lia.
Import ListNotations.
Open Scope string_scope.
Open Scope list_scope.
Open Scope nat_scope.

(** ** JavaScript primitives used by the components *)

Module Js.

(** [ToBoolean] on a string: only the empty string is falsy. *)
Definition truthy (s : string) : bool :=
  match s with
  | EmptyString => false
  | String _ _ => true
  end.

(** [ToBoolean] on a string that may be [null] or [undefined]. *)
Definition truthy_opt (v : option string) : bool :=
  match v with
  | Some s => truthy s
  | None => false
  end.

(** [v || d] where [v] is a string or [undefined] and [d] a string. *)
Definition or_else (v : option string) (d : string) : string :=
  match v with
  | Some s => if truthy s then s else d
  | None => d
  end.

(** WhiteSpace and LineTerminator code units below 256: TAB, LF, VT, FF, CR,
    SP and NBSP. *)
Definition is_white_space (c : ascii) : bool :=
  let n := nat_of_ascii c in
  ((9 <=? n)%nat && (n <=? 13)%nat) || (n =? 32)%nat || (n =? 160)%nat.

Fixpoint trimStart (s : string) : string :=
  match s with
  | EmptyString => EmptyString
  | String c r => if is_white_space c then trimStart r else s
  end.

Fixpoint trimEnd (s : string) : string :=
  match s with
  | EmptyString => EmptyString
  | String c r =>
      match trimEnd r with
      | EmptyString => if is_white_space c then EmptyString else String c EmptyString
      | String c' r' => String c (String c' r')
      end
  end.

(** [String.prototype.trim] *)
Definition trim (s : string) : string := trimEnd (trimStart s).

Fixpoint all_white_space (s : string) : bool :=
  match s with
  | EmptyString => true
  | String c r => is_white_space c && all_white_space r
  end.

(** [c.toUpperCase()] on the letters a-z; other code units are left as
    they are. *)
Definition toUpperCase_char (c : ascii) : ascii :=
  let n := nat_of_ascii c in
  if (97 <=? n)%nat && (n <=? 122)%nat then ascii_of_nat (n - 32) else c.

(** [xs.map((x, index) => f x index)]; [Array.prototype.find] is
    [List.find] and [xs[0]] is [nth_error xs 0]. *)
Fixpoint map_index_from {A B : Type} (f : A -> nat -> B) (i : nat) (xs : list A) : list B :=
  match xs with
  | [] => []
  | x :: r => f x i :: map_index_from f (S i) r
  end.

Definition map_index {A B : Type} (f : A -> nat -> B) (xs : list A) : list B :=
  map_index_from f 0 xs.

End Js.

(** ** Handlers as event sequences *)

Module Effects.

(** How a call of an injected callback settles. *)
Inductive outcome : Type :=
| Resolved
| Rejected (error : string).

(** Completion of a block: normal, or abrupt by [throw]. *)
Inductive completion (A : Type) : Type :=
| Normal (a : A)
| Thrown (error : string).

Arguments Normal {A} a.
Arguments Thrown {A} error.

Section Handlers.

(** Component state, calls of its state setters, calls of its injected
    callbacks. *)
Variables (St Wr Cb : Type).
Variable apply : Wr -> St -> St.
Variable respond : Cb -> outcome.

Inductive event : Type :=
| Write (w : Wr)
| Call (c : Cb)
| Settle (o : outcome)
| ConsoleError (message error : string)
| Alert (title message : string).

Definition M (A : Type) : Type := (completion A * list event)%type.

Definition ret {A : Type} (a : A) : M A := (Normal a, []).

Definition bind {A B : Type} (m : M A) (k : A -> M B) : M B :=
  match m with
  | (Normal a, t) => let (r, t') := k a in (r, t ++ t')
  | (Thrown e, t) => (Thrown e, t)
  end.

(** [setX(v)] *)
Definition set (w : Wr) : M unit := (Normal tt, [Write w]).

(** [f(x)] and [await f(x)] for an injected [f]. *)
Definition call (c : Cb) : M unit :=
  match respond c with
  | Resolved => (Normal tt, [Call c; Settle Resolved])
  | Rejected e => (Thrown e, [Call c; Settle (Rejected e)])
  end.

Definition console_error (message error : string) : M unit :=
  (Normal tt, [ConsoleError message error]).

Definition alert (title message : string) : M unit :=
  (Normal tt, [Alert title message]).

(** [try { body } catch (error) { handler error } finally { fin }] *)
Definition try_catch_finally {A : Type}
    (body : M A) (handler : string -> M A) (fin : M unit) : M A :=
  let (r1, t1) := body in
  let (r2, t2) := match r1 with
                  | Normal a => (Normal a, [])
                  | Thrown e => handler e
                  end in
  let (r3, t3) := fin in
  (match r3 with
   | Normal _ => r2
   | Thrown e => Thrown e
   end, t1 ++ t2 ++ t3).

Definition trace {A : Type} (m : M A) : list event := snd m.

Definition result {A : Type} (m : M A) : completion A := fst m.

Definition step (st : St) (e : event) : St :=
  match e with
  | Write w => apply w st
  | _ => st
  end.

(** The state after the setter calls of an event sequence. *)
Definition replay (t : list event) (st : St) : St := fold_left step t st.

Definition run {A : Type} (m : M A) (st : St) : St := replay (trace m) st.

End Handlers.

Arguments Write {Wr Cb} w.
Arguments Call {Wr Cb} c.
Arguments Settle {Wr Cb} o.
Arguments ConsoleError {Wr Cb} message error.
Arguments Alert {Wr Cb} title message.
Arguments ret {Wr Cb A} a.
Arguments bind {Wr Cb A B} m k.
Arguments set {Wr Cb} w.
Arguments call {Wr Cb} respond c.
Arguments console_error {Wr Cb} message error.
Arguments alert {Wr Cb} title message.
Arguments try_catch_finally {Wr Cb A} body handler fin.
Arguments trace {Wr Cb A} m.
Arguments result {Wr Cb A} m.
Arguments step {St Wr Cb} apply st e.
Arguments replay {St Wr Cb} apply t st.
Arguments run {St Wr Cb} apply {A} m st.

(** The busy gate of a handler, read off its event sequence [t]: [busy]
    is the component's loading cell and [set_busy] its setter. *)
Section BusyGate.

Variables (St Wr Cb : Type).
Variable apply : Wr -> St -> St.
Variable busy : St -> bool.
Variable set_busy : bool -> Wr.

(** At every call of an injected callback the flag is already set. *)
Definition busy_at_calls (t : list (event Wr Cb)) : Prop :=
  forall st pre c post,
    t = pre ++ Call c :: post -> busy (replay apply pre st) = true.

(** Once a call has settled, either way, the run goes on to end with the
    clearing of the flag and leaves it cleared. *)
Definition busy_cleared_after_settle (t : list (event Wr Cb)) : Prop :=
  forall st pre o post,
    t = pre ++ Settle o :: post ->
    (exists mid, post = mid ++ [Write (set_busy false)])
    /\ busy (replay apply t st) = false.

(** The flag is what it was at every point of the run. *)
Definition busy_untouched (t : list (event Wr Cb)) : Prop :=
  forall st pre post, t = pre ++ post -> busy (replay apply pre st) = busy st.

End BusyGate.

Arguments busy_at_calls {St Wr Cb} apply busy t.
Arguments busy_cleared_after_settle {St Wr Cb} apply busy set_busy t.
Arguments busy_untouched {St Wr Cb} apply busy t.

Declare Scope handler_scope.
Delimit Scope handler_scope with handler.
Notation "m ;; k" := (bind m (fun _ => k))
  (at level 61, right associativity) : handler_scope.

End Effects.

(** ** src/components/PaymentStatusTracker.js *)

Module PaymentStatusTracker.

Import Effects.
Local Open Scope handler_scope.

Record status_def : Type := { id : string; label : string; color : string }.

Definition PAYMENT_STATUSES : list status_def :=
  [ {| id := "unpaid"; label := "Unpaid"; color := "#f44336" |};
    {| id := "pending"; label := "Payment Pending"; color := "#ff9800" |};
    {| id := "partial"; label := "Partially Paid"; color := "#2196f3" |};
    {| id := "paid"; label := "Paid"; color := "#4caf50" |};
    {| id := "refunded"; label := "Refunded"; color := "#9c27b0" |} ].

(** An entry of the [paymentHistory] prop. *)
Record history_item : Type :=
  { status : string; date : string; amount : option string; note : option string }.

(** The props after their defaults ([currentStatus = 'unpaid'],
    [paymentHistory = []], [isMechanic = false]); [onUpdateStatus] is the
    oracle [respond]. *)
Record props : Type :=
  { requestId : string;
    currentStatus : string;
    paymentHistory : list history_item;
    isMechanic : bool }.

(** The three [useState] cells. *)
Record state : Type :=
  { loading : bool; selectedStatus : string; showHistory : bool }.

Definition initial_state (p : props) : state :=
  {| loading := false; selectedStatus := currentStatus p; showHistory := false |}.

Inductive setter : Type :=
| SetLoading (b : bool)
| SetSelectedStatus (s : string)
| SetShowHistory (b : bool).

Inductive callback : Type :=
| OnUpdateStatus (newStatus : string).

Definition apply (w : setter) (st : state) : state :=
  match w with
  | SetLoading b =>
      {| loading := b; selectedStatus := selectedStatus st; showHistory := showHistory st |}
  | SetSelectedStatus s =>
      {| loading := loading st; selectedStatus := s; showHistory := showHistory st |}
  | SetShowHistory b =>
      {| loading := loading st; selectedStatus := selectedStatus st; showHistory := b |}
  end.

Definition handler : Type := M setter callback unit.

(** [PAYMENT_STATUSES.find(s => s.id === x)] *)
Definition find_status (x : string) : option status_def :=
  find (fun s => (id s =? x)%string) PAYMENT_STATUSES.

(** Whether [x] is the id of a catalog entry. *)
Definition known (x : string) : bool :=
  existsb (fun s => (id s =? x)%string) PAYMENT_STATUSES.

Section Tracker.

Variable respond : callback -> outcome.
Variable p : props.
(** The state of the render whose closures these are. *)
Variable st : state.

(** [PAYMENT_STATUSES.find(s => s.id === currentStatus) || PAYMENT_STATUSES[0]];
    [None] is [undefined], on which the badge's [statusObj.color] would
    raise. *)
Definition statusObj : option status_def :=
  match find_status (currentStatus p) with
  | Some s => Some s
  | None => nth_error PAYMENT_STATUSES 0
  end.

Definition handleUpdateStatus (newStatus : string) : handler :=
  if (newStatus =? currentStatus p)%string then ret tt
  else
    set (SetLoading true) ;;
    try_catch_finally
      (call respond (OnUpdateStatus newStatus) ;;
       set (SetSelectedStatus newStatus))
      (fun error =>
         console_error "Error updating payment status:" error ;;
         alert "Error" "Failed to update payment status")
      (set (SetLoading false)).

Definition handleSendReminder : handler :=
  set (SetLoading true) ;;
  try_catch_finally
    (alert "Success" "Payment reminder sent to customer")
    (fun error =>
       console_error "Error sending payment reminder:" error ;;
       alert "Error" "Failed to send payment reminder")
    (set (SetLoading false)).

(** The history header's [onPress]: [setShowHistory(!showHistory)]. *)
Definition toggleHistory : handler := set (SetShowHistory (negb (showHistory st))).

(** One chip of the status selector: [onPress] is
    [handleUpdateStatus (chip_id)]. *)
Record status_option : Type :=
  { key : string;
    option_label : string;
    selected_mark : bool;
    disabled : bool;
    onPress : handler }.

Definition statusOption (s : status_def) : status_option :=
  {| key := id s;
     option_label := label s;
     selected_mark := (selectedStatus st =? id s)%string;
     disabled := loading st || (currentStatus p =? id s)%string;
     onPress := handleUpdateStatus (id s) |}.

(** The selector is rendered for mechanics only. *)
Definition statusOptions : option (list status_option) :=
  if isMechanic p then Some (map statusOption PAYMENT_STATUSES) else None.

(** The reminder button: rendered for mechanics while the status is
    unpaid or partial; the value is its [disabled] prop. *)
Definition reminderButton : option bool :=
  if isMechanic p
     && ((currentStatus p =? "unpaid")%string || (currentStatus p =? "partial")%string)
  then Some (loading st) else None.

(** [PAYMENT_STATUSES.find(s => s.id === item.status)?.label || item.status] *)
Definition historyItemStatus (item : history_item) : string :=
  Js.or_else (option_map label (find_status (status item))) (status item).

Section Locale.

(** [Date], [new Date(dateString)], the two locale formatters and
    [parseFloat(x).toFixed(2)] belong to the platform. *)
Variable Date : Type.
Variable newDate : string -> Date.
Variables toLocaleDateString toLocaleTimeString : Date -> string.
Variable toFixed2 : string -> string.

Definition formatDate (dateString : string) : string :=
  let date := newDate dateString in
  (toLocaleDateString date ++ " " ++ toLocaleTimeString date)%string.

Record history_row : Type :=
  { row_key : nat;
    row_status : string;
    row_date : string;
    row_amount : option string;
    row_note : option string }.

Definition historyItem (item : history_item) (index : nat) : history_row :=
  {| row_key := index;
     row_status := historyItemStatus item;
     row_date := formatDate (date item);
     row_amount :=
       match amount item with
       | Some a => if Js.truthy a then Some ("$" ++ toFixed2 a)%string else None
       | None => None
       end;
     row_note :=
       match note item with
       | Some n => if Js.truthy n then Some n else None
       | None => None
       end |}.

(** [paymentHistory.length > 0 && (... showHistory && paymentHistory.map(...))] *)
Definition historyList : option (list history_row) :=
  if (0 <? length (paymentHistory p)) && showHistory st
  then Some (Js.map_index historyItem (paymentHistory p))
  else None.

End Locale.

(** [loading && <ActivityIndicator/>] *)
Definition loadingOverlay : bool := loading st.

End Tracker.

(** The label [JobStatusManager] synthesizes for an unknown id, in the
    sibling component:
    [item.status.charAt(0).toUpperCase() + item.status.slice(1)]. *)
Definition capitalize (s : string) : string :=
  match s with
  | EmptyString => EmptyString
  | String c r => String (Js.toUpperCase_char c) r
  end.

(** Inputs on which the component is exercised below: a parent whose
    callback always resolves, one whose callback always rejects, and props
    whose history is not in date order and names a status outside the
    catalog. *)
Definition resolving : callback -> outcome := fun _ => Resolved.

Definition rejecting (error : string) : callback -> outcome := fun _ => Rejected error.

Definition example_props : props :=
  {| requestId := "req-1";
     currentStatus := "unpaid";
     paymentHistory :=
       [ {| status := "paid"; date := "2024-03-02T10:00:00.000Z";
            amount := Some "50"; note := None |};
         {| status := "overdue"; date := "2024-01-15T08:30:00.000Z";
            amount := None; note := Some "second notice" |} ];
     isMechanic := true |}.

(** A render state with the history expanded, and a stand-in locale that
    cuts the date and the time out of an ISO string. *)
Definition example_expanded : state :=
  {| loading := false; selectedStatus := "unpaid"; showHistory := true |}.

Definition example_date_part (d : string) : string := substring 0 10 d.

Definition example_time_part (d : string) : string := substring 11 8 d.

Definition example_toFixed2 (a : string) : string := (a ++ ".00")%string.

End PaymentStatusTracker.

(** ** The date-time string format of [Date.prototype.toISOString] *)

Module JsDate.

Inductive char_class : Type :=
| Digit
| Sign
| Exactly (c : ascii).

Definition in_class (k : char_class) (c : ascii) : bool :=
  match k with
  | Digit => let n := nat_of_ascii c in (48 <=? n) && (n <=? 57)
  | Sign => Ascii.eqb c "+" || Ascii.eqb c "-"
  | Exactly d => Ascii.eqb c d
  end.

Fixpoint matches (pattern : list char_class) (s : string) : bool :=
  match pattern, s with
  | [], EmptyString => true
  | k :: pattern', String c s' => in_class k c && matches pattern' s'
  | _, _ => false
  end.

(** [-MM-DDTHH:mm:ss.sssZ] *)
Definition after_year : list char_class :=
  [ Exactly "-"; Digit; Digit; Exactly "-"; Digit; Digit; Exactly "T";
    Digit; Digit; Exactly ":"; Digit; Digit; Exactly ":"; Digit; Digit;
    Exactly "."; Digit; Digit; Digit; Exactly "Z" ]%char.

(** ISO-8601 in the two shapes [toISOString] produces: a four-digit year,
    or a signed six-digit expanded year. *)
Definition is_iso8601 (s : string) : bool :=
  matches ([Digit; Digit; Digit; Digit] ++ after_year) s
  || matches ([Sign; Digit; Digit; Digit; Digit; Digit; Digit] ++ after_year) s.

End JsDate.

(** ** src/components/CancelJobModal.js *)

Module CancelJobModal.

Import Effects.
Local Open Scope handler_scope.

Record reason_def : Type := { id : string; label : string }.

Definition CANCEL_REASONS : list reason_def :=
  [ {| id := "schedule_conflict"; label := "Schedule Conflict" |};
    {| id := "found_another_mechanic"; label := "Found Another Mechanic" |};
    {| id := "no_longer_needed"; label := "Service No Longer Needed" |};
    {| id := "cost_concerns"; label := "Cost Concerns" |};
    {| id := "vehicle_fixed"; label := "Vehicle Fixed by Other Means" |};
    {| id := "other"; label := "Other Reason" |} ].

(** The props after the default [isCustomer = true]; [onClose] and
    [onCancel] are the oracle [respond]. *)
Record props : Type := { visible : bool; isCustomer : bool }.

(** The three [useState] cells; [selectedReason] starts as [null]. *)
Record state : Type :=
  { selectedReason : option string; otherReason : string; loading : bool }.

Definition initial_state : state :=
  {| selectedReason := None; otherReason := ""; loading := false |}.

(** The object handed to [onCancel]; [reasonText] is [undefined] when the
    catalog lookup finds nothing. *)
Record cancellation_data : Type :=
  { reason : option string;
    reasonText : option string;
    cancelledBy : string;
    cancelledAt : string }.

Inductive setter : Type :=
| SetSelectedReason (r : option string)
| SetOtherReason (s : string)
| SetLoading (b : bool).

Inductive callback : Type :=
| OnCancel (data : cancellation_data)
| OnClose.

Definition apply (w : setter) (st : state) : state :=
  match w with
  | SetSelectedReason r =>
      {| selectedReason := r; otherReason := otherReason st; loading := loading st |}
  | SetOtherReason s =>
      {| selectedReason := selectedReason st; otherReason := s; loading := loading st |}
  | SetLoading b =>
      {| selectedReason := selectedReason st; otherReason := otherReason st; loading := b |}
  end.

Definition handler : Type := M setter callback unit.

(** [v === s] for [v] a string or [null]. *)
Definition strict_eq (v : option string) (s : string) : bool :=
  match v with
  | Some x => (x =? s)%string
  | None => false
  end.

(** [CANCEL_REASONS.find(r => r.id === v)] *)
Definition find_reason (v : option string) : option reason_def :=
  find (fun r => strict_eq v (id r)) CANCEL_REASONS.

Section Modal.

Variable respond : callback -> outcome.
Variable p : props.
(** [new Date().toISOString()]: the clock and the formatter belong to the
    platform. *)
Variable Date : Type.
Variable now : Date.
Variable toISOString : Date -> string.
(** The state of the render whose closures these are. *)
Variable st : state.

(** The guard shared by [handleCancel] and the confirm control:
    [!selectedReason || (selectedReason === 'other' && !otherReason.trim())],
    the two tests in the order the source makes them. *)
Definition no_reason : bool := negb (Js.truthy_opt (selectedReason st)).

Definition other_without_text : bool :=
  strict_eq (selectedReason st) "other" && negb (Js.truthy (Js.trim (otherReason st))).

Definition cancellationData : cancellation_data :=
  {| reason := selectedReason st;
     reasonText :=
       if strict_eq (selectedReason st) "other"
       then Some (otherReason st)
       else option_map label (find_reason (selectedReason st));
     cancelledBy := if isCustomer p then "customer" else "mechanic";
     cancelledAt := toISOString now |}.

Definition handleCancel : handler :=
  if no_reason then
    alert "Error" "Please select a cancellation reason"
  else if other_without_text then
    alert "Error" "Please provide details for your cancellation reason"
  else
    set (SetLoading true) ;;
    try_catch_finally
      (call respond (OnCancel cancellationData) ;;
       set (SetSelectedReason None) ;;
       set (SetOtherReason "") ;;
       call respond OnClose)
      (fun error =>
         console_error "Error cancelling job:" error ;;
         alert "Error" "Failed to cancel job. Please try again.")
      (set (SetLoading false)).

Definition resetAndClose : handler :=
  set (SetSelectedReason None) ;;
  set (SetOtherReason "") ;;
  call respond OnClose.

(** The [disabled] prop of the confirm control. *)
Definition confirmButton_disabled : bool :=
  loading st || no_reason || other_without_text.

(** The [disabled] prop of the Go Back control. *)
Definition cancelButton_disabled : bool := loading st.

(** The text input is rendered while [selectedReason === 'other']. *)
Definition otherReasonInput_rendered : bool := strict_eq (selectedReason st) "other".

(** What the user can do with the rendered modal. *)
Inductive action : Type :=
| PressReason (r : reason_def)
| ChangeText (text : string)
| PressConfirm
| PressGoBack
| PressClose.

Definition enabled (a : action) : Prop :=
  match a with
  | PressReason r => In r CANCEL_REASONS
  | ChangeText _ => otherReasonInput_rendered = true
  | PressConfirm => confirmButton_disabled = false
  | PressGoBack => cancelButton_disabled = false
  | PressClose => True
  end.

Definition on_action (a : action) : handler :=
  match a with
  | PressReason r => set (SetSelectedReason (Some (id r)))
  | ChangeText text => set (SetOtherReason text)
  | PressConfirm => handleCancel
  | PressGoBack => resetAndClose
  | PressClose => resetAndClose
  end.

End Modal.

(** The states the modal can be in: a setter call made by the handler of an
    enabled control of some earlier render lands on the current state,
    whatever was interleaved while the handler was suspended. *)
Inductive reachable (p : props) : state -> Prop :=
| reach_initial : reachable p initial_state
| reach_setter (respond : callback -> outcome) (Date : Type) (now : Date)
    (toISOString : Date -> string) (st_render st : state) (a : action) (w : setter) :
    reachable p st_render ->
    reachable p st ->
    enabled st_render a ->
    In (Write w) (trace (on_action respond p Date now toISOString st_render a)) ->
    reachable p (apply w st).

(** A selected reason is an id of the catalog. *)
Definition reason_in_catalog (st : state) : Prop :=
  match selectedReason st with
  | None => True
  | Some r => In r (map id CANCEL_REASONS)
  end.

(** Inputs on which the modal is exercised below: a parent whose callbacks
    resolve, one whose [onCancel] rejects, a clock that already holds its ISO
    string, and three states: a catalog reason selected, the same while the
    cancellation is in flight, and ['other'] with a padded free text. *)
Definition resolving : callback -> outcome := fun _ => Resolved.

Definition rejecting (error : string) : callback -> outcome :=
  fun c =>
    match c with
    | OnCancel _ => Rejected error
    | OnClose => Resolved
    end.

Definition example_props : props := {| visible := true; isCustomer := true |}.

Definition example_now : string := "2024-03-02T10:00:00.000Z".

Definition example_selected : state :=
  {| selectedReason := Some "cost_concerns"; otherReason := ""; loading := false |}.

Definition example_in_flight : state :=
  {| selectedReason := Some "cost_concerns"; otherReason := ""; loading := true |}.

Definition example_other : state :=
  {| selectedReason := Some "other"; otherReason := " moving away "; loading := false |}.

End CancelJobModal.

(** ** More string primitives *)

Module JsText.

(** [String.prototype.toLowerCase] belongs to the platform and is a
    parameter of the component that uses it: on code units outside Latin-1 it
    can change the length of a string.  The function below is a stand-in for
    it in examples only: on code units below 256, A-Z and the upper-case
    letters of Latin-1 (all but the multiplication sign) move up by 32. *)
Definition latin1_lower_char (c : ascii) : ascii :=
  let n := nat_of_ascii c in
  if ((65 <=? n) && (n <=? 90))
     || ((192 <=? n) && (n <=? 214))
     || ((216 <=? n) && (n <=? 222))
  then ascii_of_nat (n + 32) else c.

Fixpoint latin1_lower (s : string) : string :=
  match s with
  | EmptyString => EmptyString
  | String c r => String (latin1_lower_char c) (latin1_lower r)
  end.

(** [s.replace(/\s+/g, '_')]: every maximal run of white space becomes one
    underscore; [in_run] tells that the previous code unit was white
    space. *)
Fixpoint replace_runs (in_run : bool) (s : string) : string :=
  match s with
  | EmptyString => EmptyString
  | String c r =>
      if Js.is_white_space c
      then if in_run then replace_runs true r else String "_" (replace_runs true r)
      else String c (replace_runs false r)
  end.

Definition replace_white_space (s : string) : string := replace_runs false s.

Fixpoint forall_chars (test : ascii -> bool) (s : string) : bool :=
  match s with
  | EmptyString => true
  | String c r => test c && forall_chars test r
  end.

Definition is_ascii_upper (c : ascii) : bool :=
  let n := nat_of_ascii c in (65 <=? n) && (n <=? 90).

(** The last code unit of a string, if any. *)
Fixpoint last_char (s : string) : option ascii :=
  match s with
  | EmptyString => None
  | String c EmptyString => Some c
  | String _ r => last_char r
  end.

Definition first_char (s : string) : option ascii :=
  match s with
  | EmptyString => None
  | String c _ => Some c
  end.

End JsText.

(** ** More inputs for CancelJobModal and PaymentStatusTracker *)

Module Scenarios.

Import Effects.

(** A parent that accepts the cancellation and whose [onClose] throws. *)
Definition closing_fails (error : string) : CancelJobModal.callback -> outcome :=
  fun c =>
    match c with
    | CancelJobModal.OnCancel _ => Resolved
    | CancelJobModal.OnClose => Rejected error
    end.

(** Props whose [currentStatus] is not in the payment catalog. *)
Definition overdue_props : PaymentStatusTracker.props :=
  {| PaymentStatusTracker.requestId := "req-2";
     PaymentStatusTracker.currentStatus := "overdue";
     PaymentStatusTracker.paymentHistory := [];
     PaymentStatusTracker.isMechanic := true |}.

End Scenarios.

(** ** JobStatusManager (src/components/QuoteForm.js, second component) *)

Module JobStatusManager.

Import Effects.
Local Open Scope handler_scope.

Record status_def : Type :=
  { id : string; label : string; color : string; description : option string }.

Definition DEFAULT_STATUSES : list status_def :=
  [ {| id := "pending"; label := "Pending"; color := "#ff9800";
       description := Some "Service request received but not yet quoted" |};
    {| id := "quoted"; label := "Quoted"; color := "#2196f3";
       description := Some "Quote provided, awaiting customer acceptance" |};
    {| id := "accepted"; label := "Accepted"; color := "#4caf50";
       description := Some "Quote accepted, work scheduled" |};
    {| id := "in_progress"; label := "In Progress"; color := "#9c27b0";
       description := Some "Work has begun on the vehicle" |};
    {| id := "parts_needed"; label := "Parts Needed"; color := "#795548";
       description := Some "Waiting for parts to arrive" |};
    {| id := "completed"; label := "Completed"; color := "#607d8b";
       description := Some "Service completed, awaiting payment" |};
    {| id := "cancelled"; label := "Cancelled"; color := "#f44336";
       description := Some "Service request cancelled" |} ].

(** An entry of the [statusHistory] prop. *)
Record history_item : Type :=
  { status : string; date : string; note : option string; updatedBy : option string }.

(** The props after their defaults ([currentStatus = 'pending'],
    [statusHistory = []], [customStatuses = []], [isMechanic = false]). *)
Record props : Type :=
  { requestId : string;
    currentStatus : string;
    statusHistory : list history_item;
    customStatuses : list status_def;
    isMechanic : bool }.

(** The six [useState] cells. *)
Record state : Type :=
  { loading : bool;
    showHistory : bool;
    showAddStatusModal : bool;
    newStatusLabel : string;
    newStatusDescription : string;
    newStatusColor : string }.

Definition initial_state : state :=
  {| loading := false; showHistory := false; showAddStatusModal := false;
     newStatusLabel := ""; newStatusDescription := ""; newStatusColor := "#2196f3" |}.

Inductive setter : Type :=
| SetLoading (b : bool)
| SetShowHistory (b : bool)
| SetShowAddStatusModal (b : bool)
| SetNewStatusLabel (s : string)
| SetNewStatusDescription (s : string)
| SetNewStatusColor (s : string).

Inductive callback : Type :=
| OnUpdateStatus (newStatus : string).

Definition apply (w : setter) (st : state) : state :=
  match w with
  | SetLoading b =>
      {| loading := b; showHistory := showHistory st;
         showAddStatusModal := showAddStatusModal st;
         newStatusLabel := newStatusLabel st;
         newStatusDescription := newStatusDescription st;
         newStatusColor := newStatusColor st |}
  | SetShowHistory b =>
      {| loading := loading st; showHistory := b;
         showAddStatusModal := showAddStatusModal st;
         newStatusLabel := newStatusLabel st;
         newStatusDescription := newStatusDescription st;
         newStatusColor := newStatusColor st |}
  | SetShowAddStatusModal b =>
      {| loading := loading st; showHistory := showHistory st;
         showAddStatusModal := b;
         newStatusLabel := newStatusLabel st;
         newStatusDescription := newStatusDescription st;
         newStatusColor := newStatusColor st |}
  | SetNewStatusLabel s =>
      {| loading := loading st; showHistory := showHistory st;
         showAddStatusModal := showAddStatusModal st;
         newStatusLabel := s;
         newStatusDescription := newStatusDescription st;
         newStatusColor := newStatusColor st |}
  | SetNewStatusDescription s =>
      {| loading := loading st; showHistory := showHistory st;
         showAddStatusModal := showAddStatusModal st;
         newStatusLabel := newStatusLabel st;
         newStatusDescription := s;
         newStatusColor := newStatusColor st |}
  | SetNewStatusColor s =>
      {| loading := loading st; showHistory := showHistory st;
         showAddStatusModal := showAddStatusModal st;
         newStatusLabel := newStatusLabel st;
         newStatusDescription := newStatusDescription st;
         newStatusColor := s |}
  end.

Definition handler : Type := M setter callback unit.

(** The object [handleAddCustomStatus] builds and then drops. *)
Record new_status : Type :=
  { new_id : string;
    new_label : string;
    new_color : string;
    new_description : option string;
    new_isCustom : bool }.

(** The view of one history entry. *)
Record history_row : Type :=
  { dot_color : string;
    row_label : string;
    row_date : string;
    row_note : option string;
    row_user : string }.

(** One chip of the status selector. *)
Record status_option : Type :=
  { key : string;
    option_label : string;
    selected_mark : bool;
    disabled : bool;
    onPress : handler }.

Section Manager.

Variable respond : callback -> outcome.
Variable p : props.
(** [String.prototype.toLowerCase], of the platform. *)
Variable toLowerCase : string -> string.
(** The state of the render whose closures these are. *)
Variable st : state.

(** [[...DEFAULT_STATUSES, ...customStatuses]] *)
Definition allStatuses : list status_def := DEFAULT_STATUSES ++ customStatuses p.

(** [allStatuses.find(s => s.id === x)] *)
Definition find_status (x : string) : option status_def :=
  find (fun s => (id s =? x)%string) allStatuses.

(** [allStatuses.find(s => s.id === currentStatus) || DEFAULT_STATUSES[0]] *)
Definition statusObj : option status_def :=
  match find_status (currentStatus p) with
  | Some s => Some s
  | None => nth_error DEFAULT_STATUSES 0
  end.

Definition handleUpdateStatus (newStatus : string) : handler :=
  if (newStatus =? currentStatus p)%string then ret tt
  else
    set (SetLoading true) ;;
    try_catch_finally
      (call respond (OnUpdateStatus newStatus))
      (fun error =>
         console_error "Error updating job status:" error ;;
         alert "Error" "Failed to update job status")
      (set (SetLoading false)).

(** [newStatusLabel.toLowerCase().replace(/\s+/g, '_')] and the object built
    around it. *)
Definition newStatus : new_status :=
  {| new_id := JsText.replace_white_space (toLowerCase (newStatusLabel st));
     new_label := Js.trim (newStatusLabel st);
     new_color := newStatusColor st;
     new_description :=
       (let d := Js.trim (newStatusDescription st) in
        if Js.truthy d then Some d else None);
     new_isCustom := true |}.

Definition handleAddCustomStatus : handler :=
  if negb (Js.truthy (Js.trim (newStatusLabel st))) then
    alert "Error" "Status label is required"
  else
    set (SetLoading true) ;;
    try_catch_finally
      (let _ := newStatus in
       set (SetShowAddStatusModal false) ;;
       set (SetNewStatusLabel "") ;;
       set (SetNewStatusDescription "") ;;
       set (SetNewStatusColor "#2196f3") ;;
       alert "Custom Status Created"
         "In the full implementation, this would save the custom status to your account.")
      (fun error =>
         console_error "Error adding custom status:" error ;;
         alert "Error" "Failed to add custom status")
      (set (SetLoading false)).

(** The [disabled] prop of the modal's Add Status control. *)
Definition addButton_disabled : bool :=
  negb (Js.truthy (Js.trim (newStatusLabel st))) || loading st.

(** [allStatuses.filter(s => s.id !== 'cancelled')] rendered as chips, for
    mechanics only. *)
Definition statusOption (s : status_def) : status_option :=
  {| key := id s;
     option_label := label s;
     selected_mark := (currentStatus p =? id s)%string;
     disabled := loading st || (currentStatus p =? id s)%string;
     onPress := handleUpdateStatus (id s) |}.

Definition selectable : list status_def :=
  filter (fun s => negb (id s =? "cancelled")%string) allStatuses.

Definition statusOptions : option (list status_option) :=
  if isMechanic p then Some (map statusOption selectable) else None.

Section Locale.

Variable Date : Type.
Variable newDate : string -> Date.
Variables toLocaleDateString toLocaleTimeString : Date -> string.

Definition formatDate (dateString : string) : string :=
  let date := newDate dateString in
  (toLocaleDateString date ++ " " ++ toLocaleTimeString date)%string.

(** [renderStatusHistoryItem]: the catalog entry of the item's status, or an
    entry made up from the raw id.  The made-up label is modelled for an id
    that starts with a code unit below 128. *)
Definition history_status (item : history_item) : status_def :=
  match find_status (status item) with
  | Some s => s
  | None =>
      {| id := status item;
         label := PaymentStatusTracker.capitalize (status item);
         color := "#999";
         description := None |}
  end.

Definition renderStatusHistoryItem (item : history_item) : history_row :=
  let s := history_status item in
  {| dot_color := color s;
     row_label := label s;
     row_date := formatDate (date item);
     row_note :=
       match note item with
       | Some n => if Js.truthy n then Some n else None
       | None => None
       end;
     row_user :=
       match updatedBy item with
       | Some u => if (u =? "mechanic")%string then "Mechanic" else "Customer"
       | None => "Customer"
       end |}.

(** [statusHistory.length > 0 && (... showHistory && <FlatList data={statusHistory}/>)] *)
Definition historyList : option (list history_row) :=
  if (0 <? length (statusHistory p)) && showHistory st
  then Some (map renderStatusHistoryItem (statusHistory p))
  else None.

End Locale.

End Manager.

(** Inputs: a mechanic's props with three custom statuses, one of them
    reusing the built-in id 'quoted' and one the id 'cancelled'. *)
Definition example_props : props :=
  {| requestId := "req-3";
     currentStatus := "quoted";
     statusHistory := [];
     customStatuses :=
       [ {| id := "towed"; label := "Towed"; color := "#009688"; description := None |};
         {| id := "quoted"; label := "Re-quoted"; color := "#673ab7";
            description := None |};
         {| id := "cancelled"; label := "Called Off"; color := "#3f51b5";
            description := None |} ];
     isMechanic := true |}.

Definition resolving_all : callback -> outcome := fun _ => Resolved.

Definition example_typing : state :=
  {| loading := false; showHistory := false; showAddStatusModal := true;
     newStatusLabel := " Awaiting  Tow "; newStatusDescription := "  ";
     newStatusColor := "#009688" |}.

End JobStatusManager.

(** ** src/components/MechanicNotes.js *)

Module MechanicNotes.

Import Effects.
Local Open Scope handler_scope.

(** An entry of the [existingNotes] prop. *)
Record note : Type := { id : string; text : string; createdAt : string }.

(** The object handed to [onAddNote]. *)
Record note_data : Type := { new_text : string; new_createdAt : string }.

(** The props after their defaults ([existingNotes = []],
    [readOnly = false]). *)
Record props : Type :=
  { requestId : string; existingNotes : list note; readOnly : bool }.

Record state : Type :=
  { newNote : string; loading : bool; expandedNoteId : option string }.

Definition initial_state : state :=
  {| newNote := ""; loading := false; expandedNoteId := None |}.

Inductive setter : Type :=
| SetNewNote (s : string)
| SetLoading (b : bool)
| SetExpandedNoteId (v : option string).

Inductive callback : Type :=
| OnAddNote (noteData : note_data)
| OnDeleteNote (noteId : string).

Definition apply (w : setter) (st : state) : state :=
  match w with
  | SetNewNote s =>
      {| newNote := s; loading := loading st; expandedNoteId := expandedNoteId st |}
  | SetLoading b =>
      {| newNote := newNote st; loading := b; expandedNoteId := expandedNoteId st |}
  | SetExpandedNoteId v =>
      {| newNote := newNote st; loading := loading st; expandedNoteId := v |}
  end.

Definition handler : Type := M setter callback unit.

(** A button of a confirmation dialog: its text, its style, and what a press
    runs, if anything. *)
Record alert_button : Type :=
  { button_text : string; button_style : string; button_onPress : option handler }.

(** The view of one note. *)
Record note_view : Type :=
  { noteDate : string;
    deleteButton : option handler;
    displayText : string;
    expandButton : option (string * handler) }.

(** [v === s] for [v] a string or [null]. *)
Definition strict_eq (v : option string) (s : string) : bool :=
  match v with
  | Some x => (x =? s)%string
  | None => false
  end.

Section Notes.

Variable respond : callback -> outcome.
(** The value the promise of [onAddNote] resolves to, as a boolean. *)
Variable added : note_data -> bool.
Variable p : props.
Variable Date : Type.
Variable now : Date.
Variable toISOString : Date -> string.
Variable newDate : string -> Date.
Variables toLocaleDateString toLocaleTimeString : Date -> string.
(** The state of the render whose closures these are. *)
Variable st : state.

Definition noteData : note_data :=
  {| new_text := Js.trim (newNote st); new_createdAt := toISOString now |}.

Definition handleAddNote : handler :=
  if negb (Js.truthy (Js.trim (newNote st))) then
    alert "Error" "Note cannot be empty"
  else
    set (SetLoading true) ;;
    try_catch_finally
      (call respond (OnAddNote noteData) ;;
       if added noteData then set (SetNewNote "") else ret tt)
      (fun error =>
         console_error "Error adding note:" error ;;
         alert "Error" "Failed to add note")
      (set (SetLoading false)).

(** The [onPress] of the dialog's Delete button. *)
Definition confirmDelete (noteId : string) : handler :=
  set (SetLoading true) ;;
  try_catch_finally
    (call respond (OnDeleteNote noteId))
    (fun error =>
       console_error "Error deleting note:" error ;;
       alert "Error" "Failed to delete note")
    (set (SetLoading false)).

(** [handleDeleteNote] only opens the dialog; these are its buttons. *)
Definition handleDeleteNote (noteId : string) : handler :=
  alert "Delete Note"
    "Are you sure you want to delete this note? This action cannot be undone.".

Definition deleteDialog_buttons (noteId : string) : list alert_button :=
  [ {| button_text := "Cancel"; button_style := "cancel"; button_onPress := None |};
    {| button_text := "Delete"; button_style := "destructive";
       button_onPress := Some (confirmDelete noteId) |} ].

Definition toggleNoteExpansion (noteId : string) : handler :=
  set (SetExpandedNoteId
         (if strict_eq (expandedNoteId st) noteId then None else Some noteId)).

Definition formatDate (dateString : string) : string :=
  let date := newDate dateString in
  (toLocaleDateString date ++ " " ++ toLocaleTimeString date)%string.

Definition isExpanded (item : note) : bool := strict_eq (expandedNoteId st) (id item).

Definition renderNote (item : note) : note_view :=
  let noteText := text item in
  let shouldTruncate := (100 <? String.length noteText) && negb (isExpanded item) in
  {| noteDate := formatDate (createdAt item);
     deleteButton :=
       if negb (readOnly p) then Some (handleDeleteNote (id item)) else None;
     displayText :=
       if shouldTruncate then (substring 0 100 noteText ++ "...")%string else noteText;
     expandButton :=
       if 100 <? String.length noteText
       then Some (if isExpanded item then "Show less" else "Show more",
                  toggleNoteExpansion (id item))
       else None |}.

(** The [disabled] prop of the Add Note control. *)
Definition addButton_disabled : bool :=
  negb (Js.truthy (Js.trim (newNote st))) || loading st.

(** The list, or [None] for the empty state ('No notes yet'). *)
Definition notesList : option (list note_view) :=
  if 0 <? length (existingNotes p)
  then Some (map renderNote (existingNotes p))
  else None.

End Notes.

(** Inputs: a parent that accepts a note, one that resolves to [false], a
    draft with padding, and a long note. *)
Definition resolving : callback -> outcome := fun _ => Resolved.

Definition example_draft : state :=
  {| newNote := "  replaced front pads "; loading := false; expandedNoteId := None |}.

Definition example_long_note : note :=
  {| id := "n1";
     text := "Customer reports a grinding noise from the front left wheel when braking at low speed; pads look worn and the rotor is scored.";
     createdAt := "2024-03-02T10:00:00.000Z" |}.

End MechanicNotes.

(** ** src/components/RatingReviewForm.js *)

Module RatingReviewForm.

Import Effects.
Local Open Scope handler_scope.

Record props : Type :=
  { visible : bool; jobId : string; customerId : string; mechanicId : string }.

Record state : Type := { rating : nat; comment : string; isLoading : bool }.

Definition initial_state : state := {| rating := 0; comment := ""; isLoading := false |}.

(** The object handed to [submitReview]. *)
Record review_data : Type :=
  { review_jobId : string;
    review_customerId : string;
    review_mechanicId : string;
    review_rating : nat;
    review_comment : string }.

Inductive setter : Type :=
| SetRating (n : nat)
| SetComment (s : string)
| SetIsLoading (b : bool).

(** [submitReview] is imported from the rating service; [onReviewSubmitted]
    and [onClose] are props. *)
Inductive callback : Type :=
| SubmitReview (reviewData : review_data)
| OnReviewSubmitted
| OnClose.

Definition apply (w : setter) (st : state) : state :=
  match w with
  | SetRating n => {| rating := n; comment := comment st; isLoading := isLoading st |}
  | SetComment s => {| rating := rating st; comment := s; isLoading := isLoading st |}
  | SetIsLoading b => {| rating := rating st; comment := comment st; isLoading := b |}
  end.

Definition handler : Type := M setter callback unit.

(** One star of the rating row. *)
Record star_view : Type := { star_key : nat; filled : bool; star_onPress : handler }.

Section Form.

Variable respond : callback -> outcome.
Variable p : props.
(** The state of the render whose closures these are. *)
Variable st : state.

Definition reviewData : review_data :=
  {| review_jobId := jobId p;
     review_customerId := customerId p;
     review_mechanicId := mechanicId p;
     review_rating := rating st;
     review_comment := comment st |}.

Definition handleSubmit : handler :=
  if rating st =? 0 then
    alert "Error" "Please select a star rating."
  else
    set (SetIsLoading true) ;;
    try_catch_finally
      (call respond (SubmitReview reviewData) ;;
       alert "Success" "Your review has been submitted!" ;;
       call respond OnReviewSubmitted ;;
       call respond OnClose)
      (fun error =>
         console_error "Error submitting review:" error ;;
         alert "Error" "Failed to submit review. Please try again.")
      (set (SetIsLoading false)).

(** [[1, 2, 3, 4, 5].map(star => ...)] *)
Definition star (n : nat) : star_view :=
  {| star_key := n; filled := n <=? rating st; star_onPress := set (SetRating n) |}.

Definition stars : list star_view := map star [1; 2; 3; 4; 5].

(** The [disabled] prop of the submit control. *)
Definition submitButton_disabled : bool := isLoading st || (rating st =? 0).

End Form.

(** Inputs: a service and parent that resolve, a parent that was given no
    [onReviewSubmitted] (calling it throws), and a filled-in form. *)
Definition resolving : callback -> outcome := fun _ => Resolved.

Definition no_onReviewSubmitted : callback -> outcome :=
  fun c =>
    match c with
    | OnReviewSubmitted => Rejected "onReviewSubmitted is not a function"
    | _ => Resolved
    end.

Definition example_props : props :=
  {| visible := true; jobId := "job-7"; customerId := "cust-1"; mechanicId := "mech-4" |}.

Definition example_filled : state :=
  {| rating := 4; comment := "On time and tidy."; isLoading := false |}.

End RatingReviewForm.

(** ** src/components/LicensePlateCapture.js *)

Module LicensePlateCapture.

Import Effects.
Local Open Scope handler_scope.

(** What [processLicensePlateCapture] resolves to when it does not resolve to
    [null]; every field may be missing. *)
Record capture_result : Type :=
  { imageUri : option string;
    licensePlate : option string;
    year : option string;
    make : option string;
    model : option string;
    message : option string }.

(** [onVehicleFound] may be left out by the parent. *)
Record props : Type := { visible : bool; has_onVehicleFound : bool }.

(** The five [useState] cells; [step] is one of ['capture'], ['processing'],
    ['results']. *)
Record state : Type :=
  { loading : bool;
    capturedImage : option string;
    extractedPlate : option string;
    vehicleInfo : option capture_result;
    step : string }.

Definition initial_state : state :=
  {| loading := false; capturedImage := None; extractedPlate := Some "";
     vehicleInfo := None; step := "capture" |}.

Inductive setter : Type :=
| SetLoading (b : bool)
| SetCapturedImage (v : option string)
| SetExtractedPlate (v : option string)
| SetVehicleInfo (v : option capture_result)
| SetStep (s : string).

(** [processLicensePlateCapture] is imported from the license plate service;
    [onVehicleFound] and [onClose] are props. *)
Inductive callback : Type :=
| ProcessLicensePlateCapture (method : string)
| OnVehicleFound (info : capture_result)
| OnClose.

Definition apply (w : setter) (st : state) : state :=
  match w with
  | SetLoading b =>
      {| loading := b; capturedImage := capturedImage st;
         extractedPlate := extractedPlate st; vehicleInfo := vehicleInfo st;
         step := step st |}
  | SetCapturedImage v =>
      {| loading := loading st; capturedImage := v;
         extractedPlate := extractedPlate st; vehicleInfo := vehicleInfo st;
         step := step st |}
  | SetExtractedPlate v =>
      {| loading := loading st; capturedImage := capturedImage st;
         extractedPlate := v; vehicleInfo := vehicleInfo st; step := step st |}
  | SetVehicleInfo v =>
      {| loading := loading st; capturedImage := capturedImage st;
         extractedPlate := extractedPlate st; vehicleInfo := v; step := step st |}
  | SetStep s =>
      {| loading := loading st; capturedImage := capturedImage st;
         extractedPlate := extractedPlate st; vehicleInfo := vehicleInfo st;
         step := s |}
  end.

Definition handler : Type := M setter callback unit.

(** What reading [error.message] gives in the [catch] block: it raises a
    TypeError when the rejection value is [null] or [undefined], and
    otherwise reads the property, which may be missing. *)
Inductive message_read : Type :=
| Raises
| Reads (message : option string).

(** [throw] *)
Definition throw (error : string) : handler := (Thrown error, []).

Section Capture.

Variable respond : callback -> outcome.
(** The rejection value named by the [error] of [Rejected error], as far as
    the [catch] block looks at it. *)
Variable message_of : string -> message_read.
(** The value the promise of [processLicensePlateCapture] resolves to:
    a result, or [null] when the user backed out. *)
Variable captured : string -> option capture_result.
Variable p : props.
(** The state of the render whose closures these are. *)
Variable st : state.

(** The arguments of [Alert.alert] are evaluated before the call, so when
    [error.message] raises no alert is shown; the [finally] block still
    runs and the handler rejects. *)
Definition handleCapture (method : string) : handler :=
  try_catch_finally
    (set (SetLoading true) ;;
     set (SetStep "processing") ;;
     call respond (ProcessLicensePlateCapture method) ;;
     match captured method with
     | Some result =>
         set (SetCapturedImage (imageUri result)) ;;
         set (SetExtractedPlate (licensePlate result)) ;;
         set (SetVehicleInfo (Some result)) ;;
         set (SetStep "results") ;;
         if Js.truthy_opt (year result) && Js.truthy_opt (make result)
            && Js.truthy_opt (model result)
         then alert "Success" (Js.or_else (message result) "Vehicle information found!")
         else alert "Partial Success"
                (Js.or_else (message result)
                   "License plate read, but vehicle details not found.")
     | None =>
         set (SetStep "capture") ;;
         alert "Cancelled" "License plate capture was cancelled."
     end)
    (fun error =>
       console_error "Error capturing license plate:" error ;;
       set (SetStep "capture") ;;
       match message_of error with
       | Raises => throw "TypeError: cannot read property 'message'"
       | Reads message =>
           alert "Error"
             (Js.or_else message "Failed to process license plate. Please try again.")
       end)
    (set (SetLoading false)).

Definition handleClose : handler :=
  set (SetCapturedImage None) ;;
  set (SetExtractedPlate (Some "")) ;;
  set (SetVehicleInfo None) ;;
  set (SetStep "capture") ;;
  call respond OnClose.

(** [if (vehicleInfo && onVehicleFound) { onVehicleFound(vehicleInfo); }
    handleClose();] *)
Definition handleUseVehicle : handler :=
  match vehicleInfo st with
  | Some info =>
      if has_onVehicleFound p then call respond (OnVehicleFound info) else ret tt
  | None => ret tt
  end ;;
  handleClose.

Definition handleRetry : handler :=
  set (SetCapturedImage None) ;;
  set (SetExtractedPlate (Some "")) ;;
  set (SetVehicleInfo None) ;;
  set (SetStep "capture").

(** Which of the three step views is rendered. *)
Definition rendered_step : option string :=
  if (step st =? "capture")%string then Some "capture"
  else if (step st =? "processing")%string then Some "processing"
  else if (step st =? "results")%string then Some "results"
  else None.

End Capture.

(** Inputs: a service that reads a plate without vehicle details, and one
    that rejects with [undefined]. *)
Definition resolving : callback -> outcome := fun _ => Resolved.

Definition rejecting_with_undefined : callback -> outcome :=
  fun _ => Rejected "undefined".

Definition undefined_has_no_message : string -> message_read := fun _ => Raises.

Definition plate_only : capture_result :=
  {| imageUri := Some "file:///plate.jpg"; licensePlate := Some "7ABC123";
     year := None; make := None; model := None; message := None |}.

Definition example_props : props := {| visible := true; has_onVehicleFound := true |}.

End LicensePlateCapture.

(** * Properties *)

(** ** Trimming *)

Module JsFacts.

Import Js.

Lemma trimStart_empty (s : string) :
  trimStart s = EmptyString <-> all_white_space s = true.
Proof.
  induction s as [|c r IH]; simpl.
  - tauto.
  - destruct (is_white_space c); simpl.
    + exact IH.
    + split; discriminate.
Qed.

Lemma trimStart_head (s : string) (c : ascii) (r : string) :
  trimStart s = String c r -> is_white_space c = false.
Proof.
  induction s as [|d t IH]; simpl.
  - discriminate.
  - destruct (is_white_space d) eqn:Hd.
    + exact IH.
    + intros H. injection H as -> _. exact Hd.
Qed.

Lemma trimEnd_head (c : ascii) (r : string) :
  is_white_space c = false -> trimEnd (String c r) <> EmptyString.
Proof.
  intros Hc. simpl. destruct (trimEnd r).
  - rewrite Hc. discriminate.
  - discriminate.
Qed.

(** [s.trim()] is empty exactly when [s] holds white space only. *)
Lemma trim_empty (s : string) :
  trim s = EmptyString <-> all_white_space s = true.
Proof.
  unfold trim. rewrite <- trimStart_empty.
  destruct (trimStart s) as [|c r] eqn:Hs.
  - simpl. tauto.
  - split.
    + intros H. apply trimStart_head in Hs. now apply (trimEnd_head c r) in Hs.
    + discriminate.
Qed.

Lemma truthy_false (s : string) : truthy s = false <-> s = EmptyString.
Proof. destruct s; simpl; split; congruence. Qed.

Lemma nth_error_map_index_from {A B : Type} (f : A -> nat -> B) (xs : list A) :
  forall k i,
    nth_error (map_index_from f k xs) i
    = option_map (fun x => f x (k + i)) (nth_error xs i).
Proof.
  induction xs as [|x r IH]; intros k i.
  - destruct i; reflexivity.
  - destruct i as [|i]; simpl.
    + now rewrite Nat.add_0_r.
    + rewrite IH. now rewrite Nat.add_succ_r.
Qed.

Lemma length_map_index_from {A B : Type} (f : A -> nat -> B) (xs : list A) :
  forall k, length (map_index_from f k xs) = length xs.
Proof.
  induction xs as [|x r IH]; intros k; simpl; [reflexivity | now rewrite IH].
Qed.

End JsFacts.

(** ** Event sequences *)

Module EffectsFacts.

Import Effects.

(** Splitting a known event sequence at one of its events. *)
Ltac split_trace H :=
  lazymatch type of H with
  | _ ++ _ :: _ = [] =>
      exfalso; exact (app_cons_not_nil _ _ _ (eq_sym H))
  | ?pre ++ _ :: _ = _ :: _ =>
      let e := fresh "e" in
      let Hhd := fresh "Hhd" in
      destruct pre as [|e pre]; simpl in H; injection H as Hhd H;
      [ try discriminate Hhd | subst e; split_trace H ]
  end.

Lemma replay_app {St Wr Cb : Type} (apply : Wr -> St -> St)
    (t u : list (event Wr Cb)) (st : St) :
  replay apply (t ++ u) st = replay apply u (replay apply t st).
Proof. unfold replay. apply fold_left_app. Qed.

(** A sequence without setter calls leaves every state as it is. *)
Lemma replay_no_write {St Wr Cb : Type} (apply : Wr -> St -> St)
    (t : list (event Wr Cb)) (st : St) :
  (forall w, ~ In (Write w) t) -> replay apply t st = st.
Proof.
  induction t as [|e t IH]; intros Hw; simpl.
  - reflexivity.
  - destruct e as [w| | | |]; simpl;
      try (apply IH; intros w' Hin; apply (Hw w'); now right).
    exfalso. apply (Hw w). now left.
Qed.

End EffectsFacts.

(** ** PaymentStatusTracker *)

Module PaymentStatusTrackerFacts.

Import Effects EffectsFacts PaymentStatusTracker.

(** The two event sequences of an update request for another status. *)
Lemma handleUpdateStatus_resolved respond p newStatus :
  newStatus <> currentStatus p ->
  respond (OnUpdateStatus newStatus) = Resolved ->
  handleUpdateStatus respond p newStatus
  = (Normal tt,
     [ Write (SetLoading true);
       Call (OnUpdateStatus newStatus);
       Settle Resolved;
       Write (SetSelectedStatus newStatus);
       Write (SetLoading false) ]).
Proof.
  intros Hne Hr. unfold handleUpdateStatus.
  destruct (String.eqb_spec newStatus (currentStatus p)) as [Heq|_]; [contradiction|].
  unfold call. rewrite Hr. reflexivity.
Qed.

Lemma handleUpdateStatus_rejected respond p newStatus error :
  newStatus <> currentStatus p ->
  respond (OnUpdateStatus newStatus) = Rejected error ->
  handleUpdateStatus respond p newStatus
  = (Normal tt,
     [ Write (SetLoading true);
       Call (OnUpdateStatus newStatus);
       Settle (Rejected error);
       ConsoleError "Error updating payment status:" error;
       Alert "Error" "Failed to update payment status";
       Write (SetLoading false) ]).
Proof.
  intros Hne Hr. unfold handleUpdateStatus.
  destruct (String.eqb_spec newStatus (currentStatus p)) as [Heq|_]; [contradiction|].
  unfold call. rewrite Hr. reflexivity.
Qed.

Lemma handleUpdateStatus_same respond p :
  handleUpdateStatus respond p (currentStatus p) = (Normal tt, []).
Proof. unfold handleUpdateStatus. now rewrite String.eqb_refl. Qed.

(** C1 (as the code has it): for a requested status other than
    [currentStatus], the local [selectedStatus] mirror is written only after
    [onUpdateStatus] has resolved.  When the callback resolves the mirror
    becomes the requested status; when it rejects no [setSelectedStatus] call
    is made and the mirror keeps its value; and at no point up to the moment
    the callback settles has the mirror changed. *)
Theorem selectedStatus_set_only_after_success respond p st newStatus :
  newStatus <> currentStatus p ->
  let h := handleUpdateStatus respond p newStatus in
  match respond (OnUpdateStatus newStatus) with
  | Resolved =>
      trace h = [ Write (SetLoading true);
                  Call (OnUpdateStatus newStatus);
                  Settle Resolved;
                  Write (SetSelectedStatus newStatus);
                  Write (SetLoading false) ]
      /\ selectedStatus (run apply h st) = newStatus
  | Rejected error =>
      (forall s, ~ In (Write (SetSelectedStatus s)) (trace h))
      /\ selectedStatus (run apply h st) = selectedStatus st
  end
  /\ (forall pre o post,
        trace h = pre ++ Settle o :: post ->
        selectedStatus (replay apply pre st) = selectedStatus st).
Proof.
  intros Hne h. subst h.
  destruct (respond (OnUpdateStatus newStatus)) as [|error] eqn:Hr.
  - rewrite (handleUpdateStatus_resolved _ _ _ Hne Hr). simpl.
    repeat split.
    intros pre o post H. symmetry in H. split_trace H. reflexivity.
  - rewrite (handleUpdateStatus_rejected _ _ _ _ Hne Hr). simpl.
    repeat split.
    + intros s [H|[H|[H|[H|[H|[H|[]]]]]]]; discriminate H.
    + intros pre o post H. symmetry in H. split_trace H. reflexivity.
Qed.

Lemma selectedStatus_set_only_after_success_witness :
  "paid" <> currentStatus example_props
  /\ selectedStatus
       (run apply (handleUpdateStatus (rejecting "offline") example_props "paid")
            (initial_state example_props))
     = "unpaid"
  /\ selectedStatus
       (run apply (handleUpdateStatus resolving example_props "paid")
            (initial_state example_props))
     = "paid".
Proof.
  split; [discriminate|]. split.
  - apply (selectedStatus_set_only_after_success
             (rejecting "offline") example_props (initial_state example_props) "paid").
    discriminate.
  - apply (selectedStatus_set_only_after_success
             resolving example_props (initial_state example_props) "paid").
    discriminate.
Defined.

(** C1 (as stated) fails: with [currentStatus = 'unpaid'], a request for
    ['paid'] and a callback that rejects, the handler makes no
    [setSelectedStatus] call at all, and the mirror is still ['unpaid'] when
    the handler has finished. *)
Lemma selectedStatus_not_set_when_update_rejects :
  let h := handleUpdateStatus (rejecting "offline") example_props "paid" in
  "paid" <> currentStatus example_props
  /\ trace h = [ Write (SetLoading true);
                 Call (OnUpdateStatus "paid");
                 Settle (Rejected "offline");
                 ConsoleError "Error updating payment status:" "offline";
                 Alert "Error" "Failed to update payment status";
                 Write (SetLoading false) ]
  /\ selectedStatus (run apply h (initial_state example_props)) = "unpaid"
  /\ selectedStatus (run apply h (initial_state example_props)) <> "paid".
Proof.
  simpl. repeat split; discriminate.
Qed.

(** C4: a request for the status that is already current is a no-op and
    not an error: the handler returns normally, [onUpdateStatus] is not
    invoked, no setter is called (so the loading flag is never set), the
    state is left as it was, and the chip of the current status is
    disabled. *)
Theorem same_status_request_is_noop respond p st :
  let h := handleUpdateStatus respond p (currentStatus p) in
  result h = Normal tt
  /\ trace h = []
  /\ (forall c, ~ In (Call c) (trace h))
  /\ (forall w, ~ In (Write w) (trace h))
  /\ run apply h st = st
  /\ (forall l c,
        disabled (statusOption respond p st
                    {| id := currentStatus p; label := l; color := c |}) = true).
Proof.
  intros h. subst h. rewrite handleUpdateStatus_same. simpl.
  split; [reflexivity|]. split; [reflexivity|].
  split; [intros c []|]. split; [intros w []|]. split; [reflexivity|].
  intros l c. rewrite String.eqb_refl. apply orb_true_r.
Qed.

Ltac case_id x :=
  repeat match goal with
         | |- context [String.eqb ?a x] =>
             destruct (String.eqb_spec a x); [subst x|]
         end.

(** The ids of the catalog are pairwise distinct, so an id names at most one
    entry. *)
Lemma PAYMENT_STATUSES_ids_NoDup : NoDup (map id PAYMENT_STATUSES).
Proof.
  simpl. repeat constructor; simpl; intuition discriminate.
Qed.

(** C5 (as the code has it): resolving a status id never fails.  The badge
    always has a definition: the catalog entry with that id when there is
    one, the first entry of the catalog otherwise.  The label of a history
    entry is the label of the catalog entry with that id when there is one,
    and otherwise the raw id itself, unchanged. *)
Theorem status_resolution_total p (item : history_item) :
  (exists d, statusObj p = Some d)
  /\ (if known (currentStatus p)
      then exists s, In s PAYMENT_STATUSES
                     /\ id s = currentStatus p /\ statusObj p = Some s
      else statusObj p = nth_error PAYMENT_STATUSES 0
           /\ statusObj p
              = Some {| id := "unpaid"; label := "Unpaid"; color := "#f44336" |})
  /\ (if known (status item)
      then exists s, In s PAYMENT_STATUSES
                     /\ id s = status item /\ historyItemStatus item = label s
      else historyItemStatus item = status item).
Proof.
  destruct p as [rid cur hist mech], item as [x d a n].
  unfold statusObj, historyItemStatus, find_status, known, PAYMENT_STATUSES.
  cbn [find existsb id currentStatus status].
  split; [|split].
  - case_id cur; cbn [nth_error]; eauto.
  - case_id cur; cbn [orb nth_error In]; eauto 10.
  - case_id x; cbn [orb option_map label Js.or_else Js.truthy In]; eauto 10.
Qed.

(** C5 (as stated) fails for history entries: the id ['overdue'] is not in
    the catalog, and its history label is the raw id, not the id with its
    first letter in upper case. *)
Lemma history_label_of_unknown_id_is_not_capitalized :
  let item := {| status := "overdue"; date := "2024-01-15T08:30:00.000Z";
                 amount := None; note := None |} in
  known (status item) = false
  /\ find_status (status item) = None
  /\ historyItemStatus item = "overdue"
  /\ capitalize (status item) = "Overdue"
  /\ historyItemStatus item <> capitalize (status item).
Proof.
  simpl. repeat split. discriminate.
Qed.

(** C7: when the history list is rendered, its rows are the entries of
    [paymentHistory] in the caller's order: there are as many rows as
    entries, the row at each index is the rendering of the entry at that
    index (no sorting by date), and its date text is the locale date string
    and the locale time string of the entry's date, joined by one space. *)
Theorem history_rows_in_caller_order (Date : Type) (newDate : string -> Date)
    (toLocaleDateString toLocaleTimeString : Date -> string)
    (toFixed2 : string -> string) p st rows :
  historyList p st Date newDate toLocaleDateString toLocaleTimeString toFixed2
  = Some rows ->
  length rows = length (paymentHistory p)
  /\ (forall i item,
        nth_error (paymentHistory p) i = Some item ->
        exists row,
          nth_error rows i = Some row
          /\ row_key row = i
          /\ row_status row = historyItemStatus item
          /\ row_date row
             = (toLocaleDateString (newDate (date item)) ++ " "
                ++ toLocaleTimeString (newDate (date item)))%string).
Proof.
  unfold historyList.
  destruct ((0 <? length (paymentHistory p)) && showHistory st); [|discriminate].
  intros H. injection H as <-. unfold Js.map_index. split.
  - apply JsFacts.length_map_index_from.
  - intros i item Hi. rewrite JsFacts.nth_error_map_index_from, Hi. simpl.
    eexists. split; [reflexivity|]. simpl. repeat split.
Qed.

Lemma history_rows_in_caller_order_witness :
  let rows :=
    [ {| row_key := 0; row_status := "Paid"; row_date := "2024-03-02 10:00:00";
         row_amount := Some "$50.00"; row_note := None |};
      {| row_key := 1; row_status := "overdue"; row_date := "2024-01-15 08:30:00";
         row_amount := None; row_note := Some "second notice" |} ] in
  historyList example_props example_expanded string (fun d => d)
    example_date_part example_time_part example_toFixed2 = Some rows
  /\ length rows = length (paymentHistory example_props).
Proof.
  split; [reflexivity|].
  apply (history_rows_in_caller_order string (fun d => d)
           example_date_part example_time_part example_toFixed2
           example_props example_expanded).
  reflexivity.
Defined.

(** C9: the no-op guard and the chips' [disabled] test read the
    [currentStatus] prop and not the [selectedStatus] mirror: two renders
    that differ in the mirror only give every chip the same [disabled] value
    and the same handler.  So after an update that resolved, while the parent
    still passes the old [currentStatus], the mirror holds the new status,
    its chip is enabled, and pressing it calls [onUpdateStatus] with that
    status once more. *)
Theorem guard_compares_currentStatus_prop respond respond' p st newStatus l c :
  newStatus <> currentStatus p ->
  respond (OnUpdateStatus newStatus) = Resolved ->
  let chip := {| id := newStatus; label := l; color := c |} in
  let st' := run apply (handleUpdateStatus respond p newStatus) st in
  (forall s mirror,
      let other := {| loading := loading st; selectedStatus := mirror;
                      showHistory := showHistory st |} in
      disabled (statusOption respond' p other s) = disabled (statusOption respond' p st s)
      /\ onPress (statusOption respond' p other s) = onPress (statusOption respond' p st s))
  /\ selectedStatus st' = newStatus
  /\ loading st' = false
  /\ disabled (statusOption respond' p st' chip) = false
  /\ In (Call (OnUpdateStatus newStatus)) (trace (onPress (statusOption respond' p st' chip))).
Proof.
  intros Hne Hr chip st'. subst chip st'.
  rewrite (handleUpdateStatus_resolved _ _ _ Hne Hr).
  split; [intros s mirror; split; reflexivity|].
  cbn [run trace snd replay fold_left step apply selectedStatus loading
       statusOption disabled onPress id].
  split; [reflexivity|]. split; [reflexivity|]. split.
  - destruct (String.eqb_spec (currentStatus p) newStatus) as [Heq|_]; [|reflexivity].
    now elim Hne.
  - destruct (respond' (OnUpdateStatus newStatus)) as [|error] eqn:Hr'.
    + rewrite (handleUpdateStatus_resolved _ _ _ Hne Hr'). simpl. tauto.
    + rewrite (handleUpdateStatus_rejected _ _ _ _ Hne Hr'). simpl. tauto.
Qed.

Lemma guard_compares_currentStatus_prop_witness :
  "paid" <> currentStatus example_props
  /\ resolving (OnUpdateStatus "paid") = Resolved
  /\ In (Call (OnUpdateStatus "paid"))
        (trace (onPress
                  (statusOption resolving example_props
                     (run apply (handleUpdateStatus resolving example_props "paid")
                          (initial_state example_props))
                     {| id := "paid"; label := "Paid"; color := "#4caf50" |}))).
Proof.
  split; [discriminate|]. split; [reflexivity|].
  apply (guard_compares_currentStatus_prop resolving resolving example_props
           (initial_state example_props) "paid" "Paid" "#4caf50");
    [discriminate | reflexivity].
Defined.

(** C10: [handleSendReminder] calls no injected callback or service.  It
    sets the loading flag, shows the success alert and clears the flag, on
    every invocation; the failure alert never appears, and the handler is the
    same whatever its [catch] block is, since the [try] block cannot throw. *)
Theorem handleSendReminder_invokes_nothing st :
  handleSendReminder
  = (Normal tt,
     [ Write (SetLoading true);
       Alert "Success" "Payment reminder sent to customer";
       Write (SetLoading false) ])
  /\ (forall c, ~ In (Call c) (trace handleSendReminder))
  /\ ~ In (Alert "Error" "Failed to send payment reminder") (trace handleSendReminder)
  /\ loading (replay apply [Write (Cb := callback) (SetLoading true)] st) = true
  /\ loading (run apply handleSendReminder st) = false
  /\ (forall catch_block,
        bind (set (SetLoading true))
          (fun _ =>
             try_catch_finally
               (alert "Success" "Payment reminder sent to customer")
               catch_block
               (set (SetLoading false)))
        = handleSendReminder).
Proof.
  split; [reflexivity|].
  split; [intros c [H|[H|[H|[]]]]; discriminate H|].
  split; [intros [H|[H|[H|[]]]]; discriminate H|].
  repeat split.
Qed.

End PaymentStatusTrackerFacts.

(** ** CancelJobModal *)

Module CancelJobModalFacts.

Import Effects EffectsFacts CancelJobModal.

Section HandleCancel.

Variable respond : callback -> outcome.
Variable p : props.
Variable Date : Type.
Variable now : Date.
Variable toISOString : Date -> string.
Variable st : state.

Let h : handler := handleCancel respond p Date now toISOString st.
Let data : cancellation_data := cancellationData p Date now toISOString st.

(** The event sequences of [handleCancel], guard by guard. *)
Lemma handleCancel_no_reason :
  no_reason st = true ->
  h = (Normal tt, [Alert "Error" "Please select a cancellation reason"]).
Proof. intros H. unfold h, handleCancel. now rewrite H. Qed.

Lemma handleCancel_other_without_text :
  no_reason st = false ->
  other_without_text st = true ->
  h = (Normal tt, [Alert "Error" "Please provide details for your cancellation reason"]).
Proof. intros H1 H2. unfold h, handleCancel. now rewrite H1, H2. Qed.

Lemma handleCancel_rejected error :
  no_reason st = false ->
  other_without_text st = false ->
  respond (OnCancel data) = Rejected error ->
  h = (Normal tt,
       [ Write (SetLoading true);
         Call (OnCancel data);
         Settle (Rejected error);
         ConsoleError "Error cancelling job:" error;
         Alert "Error" "Failed to cancel job. Please try again.";
         Write (SetLoading false) ]).
Proof.
  intros H1 H2 Hr. unfold h, handleCancel. rewrite H1, H2.
  unfold call. fold data. rewrite Hr. reflexivity.
Qed.

Lemma handleCancel_resolved :
  no_reason st = false ->
  other_without_text st = false ->
  respond (OnCancel data) = Resolved ->
  h = (Normal tt,
       [ Write (SetLoading true);
         Call (OnCancel data);
         Settle Resolved;
         Write (SetSelectedReason None);
         Write (SetOtherReason "");
         Call OnClose ]
       ++ match respond OnClose with
          | Resolved => [ Settle Resolved ]
          | Rejected error =>
              [ Settle (Rejected error);
                ConsoleError "Error cancelling job:" error;
                Alert "Error" "Failed to cancel job. Please try again." ]
          end
       ++ [ Write (SetLoading false) ]).
Proof.
  intros H1 H2 Hr. unfold h, handleCancel. rewrite H1, H2.
  unfold call. fold data. rewrite Hr.
  destruct (respond OnClose); reflexivity.
Qed.

Lemma resetAndClose_trace :
  trace (resetAndClose respond)
  = [ Write (SetSelectedReason None); Write (SetOtherReason ""); Call OnClose;
      Settle (respond OnClose) ].
Proof. unfold resetAndClose, call. destruct (respond OnClose); reflexivity. Qed.

(** What the two guards test, on a state whose selection comes from the
    catalog. *)
Lemma no_reason_iff :
  reason_in_catalog st -> (no_reason st = true <-> selectedReason st = None).
Proof.
  unfold reason_in_catalog, no_reason.
  destruct (selectedReason st) as [r|]; simpl.
  - intros Hin. split; [|discriminate].
    destruct r; simpl; [|discriminate].
    intros _. exfalso. intuition discriminate.
  - tauto.
Qed.

Lemma other_without_text_iff :
  other_without_text st = true
  <-> selectedReason st = Some "other" /\ Js.trim (otherReason st) = "".
Proof.
  unfold other_without_text. rewrite andb_true_iff, negb_true_iff, JsFacts.truthy_false.
  destruct (selectedReason st) as [r|]; simpl.
  - destruct (String.eqb_spec r "other") as [->|Hne].
    + tauto.
    + split; [intros [H _]; discriminate H | intros [H _]; congruence].
  - split; intros [H _]; discriminate H.
Qed.

Lemma cancel_call_issued :
  no_reason st = false ->
  other_without_text st = false ->
  In (Call (OnCancel data)) (trace h).
Proof.
  intros H1 H2. destruct (respond (OnCancel data)) as [|error] eqn:Hr.
  - rewrite (handleCancel_resolved H1 H2 Hr). simpl. tauto.
  - rewrite (handleCancel_rejected error H1 H2 Hr). simpl. tauto.
Qed.

(** [onCancel] is invoked only past the two guards, and only with the
    record built from the render's state. *)
Lemma cancel_call_inv d :
  In (Call (OnCancel d)) (trace h) ->
  d = data /\ no_reason st = false /\ other_without_text st = false.
Proof.
  destruct (no_reason st) eqn:H1.
  { rewrite (handleCancel_no_reason H1). simpl. intros [H|[]]; discriminate H. }
  destruct (other_without_text st) eqn:H2.
  { rewrite (handleCancel_other_without_text H1 H2). simpl. intros [H|[]]; discriminate H. }
  intros Hin. split; [|split; reflexivity]. revert Hin.
  destruct (respond (OnCancel data)) as [|error] eqn:Hr.
  - rewrite (handleCancel_resolved H1 H2 Hr).
    destruct (respond OnClose); simpl; intuition congruence.
  - rewrite (handleCancel_rejected error H1 H2 Hr). simpl. intuition congruence.
Qed.

(** The setter calls [handleCancel] can make. *)
Lemma handleCancel_writes w :
  In (Write w) (trace h) ->
  w = SetLoading true \/ w = SetLoading false
  \/ w = SetSelectedReason None \/ w = SetOtherReason "".
Proof.
  destruct (no_reason st) eqn:H1.
  { rewrite (handleCancel_no_reason H1). simpl. intros [H|[]]; discriminate H. }
  destruct (other_without_text st) eqn:H2.
  { rewrite (handleCancel_other_without_text H1 H2). simpl. intros [H|[]]; discriminate H. }
  destruct (respond (OnCancel data)) as [|error] eqn:Hr.
  - rewrite (handleCancel_resolved H1 H2 Hr).
    destruct (respond OnClose); simpl; intuition congruence.
  - rewrite (handleCancel_rejected error H1 H2 Hr). simpl. intuition congruence.
Qed.

End HandleCancel.

(** A setter call made by any control of the modal keeps the selection
    inside the catalog. *)
Lemma reachable_reason_in_catalog p st : reachable p st -> reason_in_catalog st.
Proof.
  induction 1 as [|respond Date now toISOString st_render st a w _ _ _ IH Hen Hw].
  - exact I.
  - assert (Hcases : (exists r, In r CANCEL_REASONS /\ w = SetSelectedReason (Some (id r)))
                     \/ w = SetSelectedReason None
                     \/ (exists s, w = SetOtherReason s)
                     \/ (exists b, w = SetLoading b)).
    { destruct a as [r|text| | |]; simpl in Hw.
      - destruct Hw as [Hw|[]]. injection Hw as <-. left.
        exists r. split; [exact Hen | reflexivity].
      - destruct Hw as [Hw|[]]. injection Hw as <-. right. right. left. eauto.
      - apply handleCancel_writes in Hw.
        destruct Hw as [ -> | [ -> | [ -> | -> ] ] ]; eauto 6.
      - rewrite resetAndClose_trace in Hw. simpl in Hw.
        destruct Hw as [Hw|[Hw|[Hw|[Hw|[]]]]]; try discriminate Hw;
          injection Hw as <-; eauto 6.
      - rewrite resetAndClose_trace in Hw. simpl in Hw.
        destruct Hw as [Hw|[Hw|[Hw|[Hw|[]]]]]; try discriminate Hw;
          injection Hw as <-; eauto 6. }
    unfold reason_in_catalog in *.
    destruct Hcases as [ [r [Hr ->]] | [ -> | [ [s ->] | [b ->] ] ] ];
      cbn [apply selectedReason]; auto.
    now apply in_map.
Qed.

(** The in-flight state of the examples is one the modal reaches: press a
    reason, then confirm. *)
Lemma example_in_flight_reachable : reachable example_props example_in_flight.
Proof.
  assert (Hsel : reachable example_props example_selected).
  { exact (reach_setter example_props resolving string example_now (fun d => d)
             initial_state initial_state
             (PressReason {| id := "cost_concerns"; label := "Cost Concerns" |})
             (SetSelectedReason (Some "cost_concerns"))
             (reach_initial _) (reach_initial _)
             ltac:(simpl; tauto) ltac:(simpl; tauto)). }
  exact (reach_setter example_props resolving string example_now (fun d => d)
           example_selected example_selected PressConfirm (SetLoading true)
           Hsel Hsel ltac:(reflexivity) ltac:(simpl; tauto)).
Qed.

(** C2: once [handleCancel] has passed its two guards it invokes
    [onCancel].  When [onCancel] resolves, [selectedReason] is reset to
    [null] and [otherReason] to the empty string, and [onClose] is invoked.
    When [onCancel] rejects, neither field is written (only the loading flag
    is), both keep their values, [onClose] is not invoked, and the failure
    alert is shown. *)
Theorem cancel_resets_on_success_keeps_on_failure
    respond p (Date : Type) (now : Date) (toISOString : Date -> string) st :
  no_reason st = false ->
  other_without_text st = false ->
  let h := handleCancel respond p Date now toISOString st in
  let data := cancellationData p Date now toISOString st in
  let st' := run apply h st in
  In (Call (OnCancel data)) (trace h)
  /\ match respond (OnCancel data) with
     | Resolved =>
         In (Write (SetSelectedReason None)) (trace h)
         /\ In (Write (SetOtherReason "")) (trace h)
         /\ selectedReason st' = None
         /\ otherReason st' = ""
         /\ In (Call OnClose) (trace h)
     | Rejected error =>
         (forall w, In (Write w) (trace h) -> exists b, w = SetLoading b)
         /\ selectedReason st' = selectedReason st
         /\ otherReason st' = otherReason st
         /\ ~ In (Call OnClose) (trace h)
         /\ In (Alert "Error" "Failed to cancel job. Please try again.") (trace h)
     end.
Proof.
  intros H1 H2 h data st'. subst h data st'.
  destruct (respond (OnCancel (cancellationData p Date now toISOString st)))
    as [|error] eqn:Hr.
  - rewrite (handleCancel_resolved respond p Date now toISOString st H1 H2 Hr).
    destruct (respond OnClose); simpl; tauto.
  - rewrite (handleCancel_rejected respond p Date now toISOString st error H1 H2 Hr).
    simpl. split; [tauto|]. split; [|split; [reflexivity|split; [reflexivity|]]].
    + intros w [H|[H|[H|[H|[H|[H|[]]]]]]]; try discriminate H;
        injection H as <-; eauto.
    + split; [|tauto].
      intros [H|[H|[H|[H|[H|[H|[]]]]]]]; discriminate H.
Qed.

Lemma cancel_resets_on_success_keeps_on_failure_witness :
  no_reason example_other = false
  /\ other_without_text example_other = false
  /\ (selectedReason
        (run apply
           (handleCancel resolving example_props string example_now (fun d => d)
              example_other) example_other) = None
      /\ In (Call OnClose)
            (trace (handleCancel resolving example_props string example_now
                      (fun d => d) example_other)))
  /\ (otherReason
        (run apply
           (handleCancel (rejecting "offline") example_props string example_now
              (fun d => d) example_other) example_other) = " moving away "
      /\ ~ In (Call OnClose)
              (trace (handleCancel (rejecting "offline") example_props string
                        example_now (fun d => d) example_other))).
Proof.
  split; [reflexivity|]. split; [reflexivity|]. split.
  - pose proof (cancel_resets_on_success_keeps_on_failure
                  resolving example_props string example_now (fun d => d)
                  example_other eq_refl eq_refl) as H.
    simpl in H. simpl. tauto.
  - pose proof (cancel_resets_on_success_keeps_on_failure
                  (rejecting "offline") example_props string example_now (fun d => d)
                  example_other eq_refl eq_refl) as H.
    simpl in H. simpl. tauto.
Defined.

(** C3 (as the code has it): on a state whose selection comes from the
    catalog, [handleCancel] returns before invoking [onCancel] (one
    validation alert, no callback, no setter) exactly when no reason is
    selected, or the reason is ['other'] and the free text is empty after
    trimming; otherwise it invokes [onCancel].  The confirm control is
    disabled exactly when that holds or the loading flag is set; so, while no
    cancellation is in flight, it is disabled exactly when that holds, and it
    is enabled exactly when the flag is clear and a reason other than
    ['other'], or ['other'] with non-blank text, is selected. *)
Theorem submission_blocked_iff_invalid
    respond p (Date : Type) (now : Date) (toISOString : Date -> string) st :
  reason_in_catalog st ->
  let h := handleCancel respond p Date now toISOString st in
  let invalid :=
    selectedReason st = None
    \/ (selectedReason st = Some "other" /\ Js.trim (otherReason st) = "") in
  let valid :=
    exists r, selectedReason st = Some r
              /\ (r <> "other" \/ Js.trim (otherReason st) <> "") in
  (invalid <-> ~ valid)
  /\ (invalid <->
      (exists message, trace h = [Alert "Error" message])
      /\ forall c, ~ In (Call c) (trace h))
  /\ (valid <-> In (Call (OnCancel (cancellationData p Date now toISOString st))) (trace h))
  /\ (confirmButton_disabled st = true <-> loading st = true \/ invalid)
  /\ (confirmButton_disabled st = false <-> loading st = false /\ valid)
  /\ (loading st = false -> (confirmButton_disabled st = true <-> invalid)).
Proof.
  intros Hcat h invalid valid.
  pose proof (no_reason_iff st Hcat) as Hno.
  pose proof (other_without_text_iff st) as Hother.
  assert (Hdec : invalid <-> no_reason st || other_without_text st = true).
  { unfold invalid. rewrite orb_true_iff. tauto. }
  assert (Hval : invalid <-> ~ valid).
  { unfold invalid, valid. destruct (selectedReason st) as [r|].
    - destruct (String.eqb_spec r "other") as [->|Hne];
        destruct (string_dec (Js.trim (otherReason st)) "") as [He|He].
      + split; [intros _ [r [Hr [H|H]]]; congruence | eauto].
      + split; [intros [H|[_ H]]; congruence | intros H; elim H; eauto].
      + split; [intros [H|[H _]]; congruence | intros H; elim H; eauto].
      + split; [intros [H|[H _]]; congruence | intros H; elim H; eauto].
    - split; [intros _ [r [Hr _]]; discriminate Hr | auto]. }
  assert (Hvalid : valid <-> no_reason st || other_without_text st = false).
  { rewrite <- not_true_iff_false, <- Hdec.
    split; [tauto|]. intros Hn. unfold valid, invalid in *.
    destruct (selectedReason st) as [r|]; [|tauto].
    exists r. split; [reflexivity|].
    destruct (String.eqb_spec r "other") as [->|Hne]; [|tauto].
    right. intros He. apply Hn. right. split; [reflexivity | exact He]. }
  assert (Hearly : no_reason st || other_without_text st = true ->
                   (exists message, trace h = [Alert "Error" message])
                   /\ forall c, ~ In (Call c) (trace h)).
  { intros Hb. subst h. destruct (no_reason st) eqn:H1.
    - rewrite (handleCancel_no_reason respond p Date now toISOString st H1). simpl.
      split; [eauto|]. intros c [H|[]]; discriminate H.
    - simpl in Hb.
      rewrite (handleCancel_other_without_text respond p Date now toISOString st H1 Hb).
      simpl. split; [eauto|]. intros c [H|[]]; discriminate H. }
  assert (Hcall : no_reason st || other_without_text st = false ->
                  In (Call (OnCancel (cancellationData p Date now toISOString st)))
                     (trace h)).
  { intros Hb. apply orb_false_iff in Hb. destruct Hb as [H1 H2].
    apply (cancel_call_issued respond p Date now toISOString st H1 H2). }
  split; [exact Hval|]. split; [|split; [|split; [|split]]].
  - split; [intros Hi; apply Hearly, Hdec, Hi|].
    intros [_ Hnc]. apply Hdec.
    destruct (no_reason st || other_without_text st) eqn:Hb; [reflexivity|].
    elim (Hnc _ (Hcall eq_refl)).
  - split; [intros Hv; apply Hcall, Hvalid, Hv|].
    intros Hin. apply Hvalid.
    destruct (no_reason st || other_without_text st) eqn:Hb; [|reflexivity].
    destruct (Hearly eq_refl) as [_ Hnc]. elim (Hnc _ Hin).
  - unfold confirmButton_disabled. rewrite Hdec, <- orb_assoc, orb_true_iff. tauto.
  - unfold confirmButton_disabled. rewrite Hvalid, <- orb_assoc, orb_false_iff. tauto.
  - intros Hl. unfold confirmButton_disabled. rewrite Hdec, Hl. simpl. tauto.
Qed.

Lemma submission_blocked_iff_invalid_witness :
  reason_in_catalog example_other
  /\ (confirmButton_disabled example_other = false
      <-> loading example_other = false
          /\ exists r, selectedReason example_other = Some r
                       /\ (r <> "other" \/ Js.trim (otherReason example_other) <> "")).
Proof.
  assert (Hcat : reason_in_catalog example_other) by (unfold reason_in_catalog; simpl; auto 10).
  split; [exact Hcat|].
  destruct (submission_blocked_iff_invalid resolving example_props string example_now
              (fun d => d) example_other Hcat) as (_ & _ & _ & _ & H & _).
  exact H.
Defined.

(** C3 (as stated) fails for the confirm control: while a cancellation is in
    flight the control is disabled although a reason other than ['other'] is
    selected.  The state is the one the modal is in after a press on
    'Cost Concerns' and a press on the confirm control. *)
Lemma confirm_disabled_while_in_flight :
  reachable example_props example_in_flight
  /\ selectedReason example_in_flight = Some "cost_concerns"
  /\ "cost_concerns" <> "other"
  /\ confirmButton_disabled example_in_flight = true
  /\ ~ (selectedReason example_in_flight = None
        \/ (selectedReason example_in_flight = Some "other"
            /\ Js.trim (otherReason example_in_flight) = "")).
Proof.
  split; [exact example_in_flight_reachable|].
  split; [reflexivity|]. split; [discriminate|]. split; [reflexivity|].
  simpl. intros [H|[H _]]; discriminate H.
Qed.

(** Looking up the id of a catalog entry finds that entry. *)
Lemma find_reason_in_catalog r :
  In r CANCEL_REASONS -> find_reason (Some (id r)) = Some r.
Proof.
  intros [<-|[<-|[<-|[<-|[<-|[<-|[]]]]]]]; reflexivity.
Qed.

(** C8: whenever [handleCancel] invokes [onCancel], on a state whose
    selection comes from the catalog, the record it passes has [reason] the
    selected id, one of the six catalog ids; [reasonText] the free text when
    that id is ['other'] and the catalog label of the id otherwise;
    [cancelledBy] ['customer'] when [isCustomer] holds and ['mechanic']
    otherwise; and [cancelledAt] the clock's [toISOString()], an ISO-8601
    string as the platform produces it. *)
Theorem cancellation_record_fields
    respond p (Date : Type) (now : Date) (toISOString : Date -> string) st data :
  reason_in_catalog st ->
  JsDate.is_iso8601 (toISOString now) = true ->
  In (Call (OnCancel data)) (trace (handleCancel respond p Date now toISOString st)) ->
  length CANCEL_REASONS = 6
  /\ (exists r, In r CANCEL_REASONS
                /\ selectedReason st = Some (id r)
                /\ reason data = Some (id r)
                /\ reasonText data
                   = Some (if (id r =? "other")%string then otherReason st else label r))
  /\ cancelledBy data = (if isCustomer p then "customer" else "mechanic")
  /\ cancelledAt data = toISOString now
  /\ JsDate.is_iso8601 (cancelledAt data) = true.
Proof.
  intros Hcat Hiso Hin.
  apply cancel_call_inv in Hin. destruct Hin as [-> [H1 _]].
  split; [reflexivity|].
  split; [|split; [reflexivity|split; [reflexivity|exact Hiso]]].
  unfold no_reason in H1. unfold reason_in_catalog in Hcat.
  unfold cancellationData. cbn [reason reasonText].
  destruct (selectedReason st) as [x|]; [|discriminate H1].
  apply in_map_iff in Hcat. destruct Hcat as [r [<- Hr]].
  exists r. split; [exact Hr|]. split; [reflexivity|]. split; [reflexivity|].
  rewrite (find_reason_in_catalog r Hr). cbn [strict_eq option_map].
  now destruct (id r =? "other")%string.
Qed.

Lemma cancellation_record_fields_witness :
  reason_in_catalog example_other
  /\ JsDate.is_iso8601 example_now = true
  /\ In (Call (OnCancel {| reason := Some "other";
                          reasonText := Some " moving away ";
                          cancelledBy := "customer";
                          cancelledAt := example_now |}))
        (trace (handleCancel resolving example_props string example_now
                  (fun d => d) example_other))
  /\ JsDate.is_iso8601 example_now = true.
Proof.
  split; [unfold reason_in_catalog; simpl; auto 10|]. split; [reflexivity|].
  split; [simpl; tauto|].
  apply (cancellation_record_fields resolving example_props string example_now
           (fun d => d) example_other
           {| reason := Some "other"; reasonText := Some " moving away ";
              cancelledBy := "customer"; cancelledAt := example_now |});
    [unfold reason_in_catalog; simpl; auto 10 | reflexivity | simpl; tauto].
Defined.

End CancelJobModalFacts.

(** ** The busy gate of both components *)

Module BusyGateFacts.

Import Effects EffectsFacts.

Ltac no_call_in_empty H :=
  exfalso; exact (app_cons_not_nil _ _ _ H).

(** The three gate properties of an event sequence that is known event by
    event. *)
Ltac at_calls :=
  let H := fresh "H" in
  intros ? ? ? ? H; symmetry in H; split_trace H; reflexivity.

Ltac cleared_after_settle :=
  let H := fresh "H" in
  intros ? ? ? ? H; symmetry in H; split_trace H;
  (split;
   [ subst;
     match goal with
     | |- exists mid, ?l = _ => exists (removelast l)
     end; reflexivity
   | reflexivity ]).

Ltac walk_prefix H pre :=
  destruct pre as [|? pre]; simpl in H;
  [ reflexivity
  | first [ discriminate H | injection H as <- H; walk_prefix H pre ] ].

Ltac untouched_without_call Hnc :=
  first
    [ exfalso; eapply Hnc; simpl; tauto
    | let H := fresh "H" in
      let pre := fresh "pre" in
      intros ? pre ? H; walk_prefix H pre ].

Ltac idle_stays_idle :=
  let H := fresh "H" in
  intros ? H; simpl; first [reflexivity | exact H].

Section TrackerGate.

Import PaymentStatusTracker PaymentStatusTrackerFacts.

Variable respond : callback -> outcome.
Variable p : props.
Variable newStatus : string.

Let t : list (event setter callback) := trace (handleUpdateStatus respond p newStatus).

Lemma handleUpdateStatus_busy_gate :
  busy_at_calls apply loading t
  /\ busy_cleared_after_settle apply loading SetLoading t
  /\ ((forall c, ~ In (Call c) t) -> busy_untouched apply loading t)
  /\ (forall st0, loading st0 = false -> loading (replay apply t st0) = false).
Proof.
  unfold t. destruct (String.eqb_spec newStatus (currentStatus p)) as [->|Hne].
  - rewrite handleUpdateStatus_same. simpl.
    split; [|split; [|split]].
    + intros st pre c post H. no_call_in_empty H.
    + intros st pre o post H. no_call_in_empty H.
    + intros Hnc. untouched_without_call Hnc.
    + idle_stays_idle.
  - destruct (respond (OnUpdateStatus newStatus)) as [|error] eqn:Hr.
    + rewrite (handleUpdateStatus_resolved _ _ _ Hne Hr). simpl.
      split; [at_calls|]. split; [cleared_after_settle|].
      split; [intros Hnc; untouched_without_call Hnc | idle_stays_idle].
    + rewrite (handleUpdateStatus_rejected _ _ _ _ Hne Hr). simpl.
      split; [at_calls|]. split; [cleared_after_settle|].
      split; [intros Hnc; untouched_without_call Hnc | idle_stays_idle].
Qed.

End TrackerGate.

Section ModalGate.

Import CancelJobModal CancelJobModalFacts.

Variable respond : callback -> outcome.
Variable p : props.
Variable Date : Type.
Variable now : Date.
Variable toISOString : Date -> string.
Variable st : state.

Let t : list (event setter callback) :=
  trace (handleCancel respond p Date now toISOString st).

Lemma handleCancel_busy_gate :
  busy_at_calls apply loading t
  /\ busy_cleared_after_settle apply loading SetLoading t
  /\ ((forall c, ~ In (Call c) t) -> busy_untouched apply loading t)
  /\ (forall st0, loading st0 = false -> loading (replay apply t st0) = false).
Proof.
  unfold t. destruct (no_reason st) eqn:H1.
  { rewrite (handleCancel_no_reason respond p Date now toISOString st H1). simpl.
    split; [at_calls|]. split; [cleared_after_settle|].
    split; [intros Hnc; untouched_without_call Hnc | idle_stays_idle]. }
  destruct (other_without_text st) eqn:H2.
  { rewrite (handleCancel_other_without_text respond p Date now toISOString st H1 H2).
    simpl. split; [at_calls|]. split; [cleared_after_settle|].
    split; [intros Hnc; untouched_without_call Hnc | idle_stays_idle]. }
  destruct (respond (OnCancel (cancellationData p Date now toISOString st)))
    as [|error] eqn:Hr.
  - rewrite (handleCancel_resolved respond p Date now toISOString st H1 H2 Hr).
    destruct (respond OnClose); simpl;
      (split; [at_calls|]; split; [cleared_after_settle|]);
      (split; [intros Hnc; untouched_without_call Hnc | idle_stays_idle]).
  - rewrite (handleCancel_rejected respond p Date now toISOString st error H1 H2 Hr).
    simpl. split; [at_calls|]. split; [cleared_after_settle|].
    split; [intros Hnc; untouched_without_call Hnc | idle_stays_idle].
Qed.

End ModalGate.

(** Past its guard, [handleUpdateStatus] sets the flag, calls, and ends with
    the clearing of the flag; the flag is written nowhere in between. *)
Lemma handleUpdateStatus_calls_under_flag respond p newStatus :
  let t := trace (PaymentStatusTracker.handleUpdateStatus respond p newStatus) in
  if (newStatus =? PaymentStatusTracker.currentStatus p)%string
  then t = []
  else exists mid,
         t = Write (PaymentStatusTracker.SetLoading true)
             :: Call (PaymentStatusTracker.OnUpdateStatus newStatus)
             :: Settle (respond (PaymentStatusTracker.OnUpdateStatus newStatus))
             :: mid ++ [Write (PaymentStatusTracker.SetLoading false)]
         /\ (forall b, ~ In (Write (PaymentStatusTracker.SetLoading b)) mid)
         /\ (forall c, ~ In (Call c) mid)
         /\ (forall st,
               PaymentStatusTracker.loading
                 (replay PaymentStatusTracker.apply
                    [Write (Cb := PaymentStatusTracker.callback)
                       (PaymentStatusTracker.SetLoading true)] st) = true
               /\ PaymentStatusTracker.loading
                    (replay PaymentStatusTracker.apply t st) = false).
Proof.
  intros t. subst t.
  destruct (String.eqb_spec newStatus (PaymentStatusTracker.currentStatus p))
    as [->|Hne].
  - now rewrite PaymentStatusTrackerFacts.handleUpdateStatus_same.
  - destruct (respond (PaymentStatusTracker.OnUpdateStatus newStatus))
      as [|error] eqn:Hr.
    + rewrite (PaymentStatusTrackerFacts.handleUpdateStatus_resolved _ _ _ Hne Hr).
      exists [Write (PaymentStatusTracker.SetSelectedStatus newStatus)].
      split; [reflexivity|].
      split; [intros b [H|[]]; discriminate H|].
      split; [intros c [H|[]]; discriminate H|].
      intros st. split; reflexivity.
    + rewrite (PaymentStatusTrackerFacts.handleUpdateStatus_rejected _ _ _ _ Hne Hr).
      exists [ConsoleError "Error updating payment status:" error;
              Alert "Error" "Failed to update payment status"].
      split; [reflexivity|].
      split; [intros b [H|[H|[]]]; discriminate H|].
      split; [intros c [H|[H|[]]]; discriminate H|].
      intros st. split; reflexivity.
Qed.

(** Past its two guards, [handleCancel] sets the flag, calls [onCancel], and
    ends with the clearing of the flag; the flag is written nowhere in
    between. *)
Lemma handleCancel_calls_under_flag
    respond p (Date : Type) (now : Date) (toISOString : Date -> string) st :
  let t := trace (CancelJobModal.handleCancel respond p Date now toISOString st) in
  let data := CancelJobModal.cancellationData p Date now toISOString st in
  if CancelJobModal.no_reason st || CancelJobModal.other_without_text st
  then exists message, t = [Alert "Error" message]
  else exists mid,
         t = Write (CancelJobModal.SetLoading true)
             :: Call (CancelJobModal.OnCancel data)
             :: Settle (respond (CancelJobModal.OnCancel data))
             :: mid ++ [Write (CancelJobModal.SetLoading false)]
         /\ (forall b, ~ In (Write (CancelJobModal.SetLoading b)) mid)
         /\ (forall st0,
               CancelJobModal.loading
                 (replay CancelJobModal.apply
                    [Write (Cb := CancelJobModal.callback)
                       (CancelJobModal.SetLoading true)] st0) = true
               /\ CancelJobModal.loading (replay CancelJobModal.apply t st0) = false).
Proof.
  intros t data. subst t data.
  destruct (CancelJobModal.no_reason st) eqn:H1.
  { rewrite (CancelJobModalFacts.handleCancel_no_reason
               respond p Date now toISOString st H1). simpl. eauto. }
  destruct (CancelJobModal.other_without_text st) eqn:H2.
  { rewrite (CancelJobModalFacts.handleCancel_other_without_text
               respond p Date now toISOString st H1 H2). simpl. eauto. }
  cbn [orb].
  destruct (respond (CancelJobModal.OnCancel
                       (CancelJobModal.cancellationData p Date now toISOString st)))
    as [|error] eqn:Hr.
  - rewrite (CancelJobModalFacts.handleCancel_resolved
               respond p Date now toISOString st H1 H2 Hr).
    destruct (respond CancelJobModal.OnClose) as [|error].
    + exists [ Write (CancelJobModal.SetSelectedReason None);
               Write (CancelJobModal.SetOtherReason "");
               Call CancelJobModal.OnClose; Settle Resolved ].
      split; [reflexivity|].
      split; [intros b H; repeat (destruct H as [H|H]; [discriminate H|]); exact H|].
      intros st0. split; reflexivity.
    + exists [ Write (CancelJobModal.SetSelectedReason None);
               Write (CancelJobModal.SetOtherReason "");
               Call CancelJobModal.OnClose; Settle (Rejected error);
               ConsoleError "Error cancelling job:" error;
               Alert "Error" "Failed to cancel job. Please try again." ].
      split; [reflexivity|].
      split; [intros b H; repeat (destruct H as [H|H]; [discriminate H|]); exact H|].
      intros st0. split; reflexivity.
  - rewrite (CancelJobModalFacts.handleCancel_rejected
               respond p Date now toISOString st error H1 H2 Hr).
    exists [ ConsoleError "Error cancelling job:" error;
             Alert "Error" "Failed to cancel job. Please try again." ].
    split; [reflexivity|].
    split; [intros b H; repeat (destruct H as [H|H]; [discriminate H|]); exact H|].
    intros st0. split; reflexivity.
Qed.

(** C6: [PaymentStatusTracker.handleUpdateStatus], for a status other than
    the current one, and [CancelJobModal.handleCancel], past its validation,
    do invoke their callback, and every such run is: set the loading flag,
    call, and, once the call has settled by resolution or by rejection, go on
    to end with the clearing of the flag, which is written nowhere in
    between; the flag is set at the call and clear at the end whatever state
    the run started from.  In both handlers alike the flag is set at every
    call of an injected callback; after any settlement the run ends with the
    clearing of the flag; a run that calls no callback never touches the
    flag; and a run started with the flag clear ends with the flag clear. *)
Theorem busy_flag_brackets_the_callback :
  (forall respond p newStatus,
      let t := trace (PaymentStatusTracker.handleUpdateStatus respond p newStatus) in
      (if (newStatus =? PaymentStatusTracker.currentStatus p)%string
       then t = []
       else exists mid,
              t = Write (PaymentStatusTracker.SetLoading true)
                  :: Call (PaymentStatusTracker.OnUpdateStatus newStatus)
                  :: Settle (respond (PaymentStatusTracker.OnUpdateStatus newStatus))
                  :: mid ++ [Write (PaymentStatusTracker.SetLoading false)]
              /\ (forall b, ~ In (Write (PaymentStatusTracker.SetLoading b)) mid)
              /\ (forall c, ~ In (Call c) mid)
              /\ (forall st,
                    PaymentStatusTracker.loading
                      (replay PaymentStatusTracker.apply
                         [Write (Cb := PaymentStatusTracker.callback)
                            (PaymentStatusTracker.SetLoading true)] st) = true
                    /\ PaymentStatusTracker.loading
                         (replay PaymentStatusTracker.apply t st) = false))
      /\ busy_at_calls PaymentStatusTracker.apply PaymentStatusTracker.loading t
      /\ busy_cleared_after_settle PaymentStatusTracker.apply
           PaymentStatusTracker.loading PaymentStatusTracker.SetLoading t
      /\ ((forall c, ~ In (Call c) t) ->
          busy_untouched PaymentStatusTracker.apply PaymentStatusTracker.loading t)
      /\ (forall st, PaymentStatusTracker.loading st = false ->
                     PaymentStatusTracker.loading
                       (replay PaymentStatusTracker.apply t st) = false))
  /\ (forall respond p (Date : Type) (now : Date) (toISOString : Date -> string) st,
         let t := trace (CancelJobModal.handleCancel respond p Date now toISOString st) in
         let data := CancelJobModal.cancellationData p Date now toISOString st in
         (if CancelJobModal.no_reason st || CancelJobModal.other_without_text st
          then exists message, t = [Alert "Error" message]
          else exists mid,
                 t = Write (CancelJobModal.SetLoading true)
                     :: Call (CancelJobModal.OnCancel data)
                     :: Settle (respond (CancelJobModal.OnCancel data))
                     :: mid ++ [Write (CancelJobModal.SetLoading false)]
                 /\ (forall b, ~ In (Write (CancelJobModal.SetLoading b)) mid)
                 /\ (forall st0,
                       CancelJobModal.loading
                         (replay CancelJobModal.apply
                            [Write (Cb := CancelJobModal.callback)
                               (CancelJobModal.SetLoading true)] st0) = true
                       /\ CancelJobModal.loading
                            (replay CancelJobModal.apply t st0) = false))
         /\ busy_at_calls CancelJobModal.apply CancelJobModal.loading t
         /\ busy_cleared_after_settle CancelJobModal.apply
              CancelJobModal.loading CancelJobModal.SetLoading t
         /\ ((forall c, ~ In (Call c) t) ->
             busy_untouched CancelJobModal.apply CancelJobModal.loading t)
         /\ (forall st0, CancelJobModal.loading st0 = false ->
                         CancelJobModal.loading
                           (replay CancelJobModal.apply t st0) = false)).
Proof.
  split.
  - intros respond p newStatus. split.
    + apply handleUpdateStatus_calls_under_flag.
    + apply handleUpdateStatus_busy_gate.
  - intros respond p Date now toISOString st. split.
    + apply handleCancel_calls_under_flag.
    + apply handleCancel_busy_gate.
Qed.

(** A rejected update and a resolved cancellation: in both runs the callback
    is called with the flag set, and the flag is clear at the end. *)
Lemma busy_flag_brackets_the_callback_witness :
  (exists pre post,
      trace (PaymentStatusTracker.handleUpdateStatus
               (PaymentStatusTracker.rejecting "offline")
               PaymentStatusTracker.example_props "paid")
      = pre ++ Call (PaymentStatusTracker.OnUpdateStatus "paid")
           :: Settle (Rejected "offline") :: post
      /\ PaymentStatusTracker.loading
           (replay PaymentStatusTracker.apply pre
              (PaymentStatusTracker.initial_state PaymentStatusTracker.example_props))
         = true
      /\ PaymentStatusTracker.loading
           (replay PaymentStatusTracker.apply
              (trace (PaymentStatusTracker.handleUpdateStatus
                        (PaymentStatusTracker.rejecting "offline")
                        PaymentStatusTracker.example_props "paid"))
              (PaymentStatusTracker.initial_state PaymentStatusTracker.example_props))
         = false)
  /\ (exists pre post,
         trace (CancelJobModal.handleCancel CancelJobModal.resolving
                  CancelJobModal.example_props string CancelJobModal.example_now
                  (fun d => d) CancelJobModal.example_selected)
         = pre ++ Call (CancelJobModal.OnCancel
                          (CancelJobModal.cancellationData CancelJobModal.example_props
                             string CancelJobModal.example_now (fun d => d)
                             CancelJobModal.example_selected))
              :: Settle Resolved :: post
         /\ CancelJobModal.loading
              (replay CancelJobModal.apply pre CancelJobModal.example_selected) = true
         /\ CancelJobModal.loading
              (replay CancelJobModal.apply
                 (trace (CancelJobModal.handleCancel CancelJobModal.resolving
                           CancelJobModal.example_props string
                           CancelJobModal.example_now (fun d => d)
                           CancelJobModal.example_selected))
                 CancelJobModal.example_selected) = false)
  /\ ((forall c,
          ~ In (Call c)
               (trace (CancelJobModal.handleCancel CancelJobModal.resolving
                         CancelJobModal.example_props string CancelJobModal.example_now
                         (fun d => d) CancelJobModal.initial_state)))
      /\ busy_untouched CancelJobModal.apply CancelJobModal.loading
           (trace (CancelJobModal.handleCancel CancelJobModal.resolving
                     CancelJobModal.example_props string CancelJobModal.example_now
                     (fun d => d) CancelJobModal.initial_state))).
Proof.
  destruct busy_flag_brackets_the_callback as [Htracker Hmodal].
  split; [|split].
  - destruct (Htracker (PaymentStatusTracker.rejecting "offline")
                PaymentStatusTracker.example_props "paid") as [Hrun _].
    cbv zeta in Hrun. cbn [String.eqb Ascii.eqb Bool.eqb PaymentStatusTracker.currentStatus
                           PaymentStatusTracker.example_props] in Hrun.
    destruct Hrun as [mid [Ht [_ [_ Hflag]]]].
    exists [Write (PaymentStatusTracker.SetLoading true)],
           (mid ++ [Write (PaymentStatusTracker.SetLoading false)]).
    split; [exact Ht|].
    exact (Hflag (PaymentStatusTracker.initial_state PaymentStatusTracker.example_props)).
  - destruct (Hmodal CancelJobModal.resolving CancelJobModal.example_props string
                CancelJobModal.example_now (fun d => d)
                CancelJobModal.example_selected) as [Hrun _].
    cbv zeta in Hrun.
    change (CancelJobModal.no_reason CancelJobModal.example_selected
            || CancelJobModal.other_without_text CancelJobModal.example_selected)
      with false in Hrun.
    destruct Hrun as [mid [Ht [_ Hflag]]].
    exists [Write (CancelJobModal.SetLoading true)],
           (mid ++ [Write (CancelJobModal.SetLoading false)]).
    split; [exact Ht|].
    exact (Hflag CancelJobModal.example_selected).
  - assert (Hnc : forall c,
               ~ In (Call c)
                    (trace (CancelJobModal.handleCancel CancelJobModal.resolving
                              CancelJobModal.example_props string
                              CancelJobModal.example_now (fun d => d)
                              CancelJobModal.initial_state))).
    { intros c [H|[]]. discriminate H. }
    split; [exact Hnc|].
    apply (Hmodal CancelJobModal.resolving CancelJobModal.example_props string
             CancelJobModal.example_now (fun d => d) CancelJobModal.initial_state).
    exact Hnc.
Defined.

End BusyGateFacts.

(** ** CancelJobModal: closing, selecting, and the in-flight state *)

Module CancelJobModalExtras.

Import Effects EffectsFacts CancelJobModal CancelJobModalFacts Scenarios.

(** X1: [resetAndClose] discards the selection whatever the state is, also
    while a cancellation is in flight: both fields are reset, the loading
    flag is left alone, [onClose] is called once and [onCancel] never; a
    confirm press on the re-rendered modal is blocked with the
    select-a-reason alert. *)
Theorem resetAndClose_discards_selection
    respond respond' p (Date : Type) (now : Date) (toISOString : Date -> string) st :
  let st' := run apply (resetAndClose respond) st in
  trace (resetAndClose respond)
  = [ Write (SetSelectedReason None); Write (SetOtherReason ""); Call OnClose;
      Settle (respond OnClose) ]
  /\ selectedReason st' = None
  /\ otherReason st' = ""
  /\ loading st' = loading st
  /\ confirmButton_disabled st' = true
  /\ handleCancel respond' p Date now toISOString st'
     = (Normal tt, [Alert "Error" "Please select a cancellation reason"]).
Proof.
  intros st'. subst st'. unfold run. rewrite resetAndClose_trace. simpl.
  split; [reflexivity|]. split; [reflexivity|]. split; [reflexivity|].
  split; [reflexivity|]. split; [|reflexivity].
  unfold confirmButton_disabled. cbn [loading]. now destruct (loading st).
Qed.

(** X2: when [onCancel] resolves and [onClose] then throws, [handleCancel]
    swallows the error: it completes normally, shows the failed-to-cancel
    alert although the cancellation was accepted, and leaves the fields reset
    and the flag clear.  The same throw in [resetAndClose] is not caught. *)
Theorem onClose_failure_reported_as_cancel_failure
    respond p (Date : Type) (now : Date) (toISOString : Date -> string) st error :
  no_reason st = false ->
  other_without_text st = false ->
  respond (OnCancel (cancellationData p Date now toISOString st)) = Resolved ->
  respond OnClose = Rejected error ->
  let h := handleCancel respond p Date now toISOString st in
  result h = Normal tt
  /\ trace h
     = [ Write (SetLoading true);
         Call (OnCancel (cancellationData p Date now toISOString st));
         Settle Resolved;
         Write (SetSelectedReason None);
         Write (SetOtherReason "");
         Call OnClose;
         Settle (Rejected error);
         ConsoleError "Error cancelling job:" error;
         Alert "Error" "Failed to cancel job. Please try again.";
         Write (SetLoading false) ]
  /\ run apply h st = initial_state
  /\ result (resetAndClose respond) = Thrown error.
Proof.
  intros H1 H2 Hr Hc h. subst h.
  rewrite (handleCancel_resolved respond p Date now toISOString st H1 H2 Hr).
  unfold resetAndClose, call. rewrite Hc. repeat split.
Qed.

Lemma onClose_failure_reported_as_cancel_failure_witness :
  no_reason example_selected = false
  /\ other_without_text example_selected = false
  /\ run apply
       (handleCancel (closing_fails "unmounted") example_props string example_now
          (fun d => d) example_selected) example_selected
     = initial_state
  /\ result (resetAndClose (closing_fails "unmounted")) = Thrown "unmounted".
Proof.
  split; [reflexivity|]. split; [reflexivity|].
  destruct (onClose_failure_reported_as_cancel_failure
              (closing_fails "unmounted") example_props string example_now
              (fun d => d) example_selected "unmounted"
              eq_refl eq_refl eq_refl eq_refl) as (_ & _ & Hrun & Hthrown).
  split; [exact Hrun | exact Hthrown].
Defined.

(** X3: at the moment [handleCancel] calls [onCancel], and so for as long
    as the call is in flight, the confirm and Go Back controls are disabled
    and the selection is still the user's; the close control and the reason
    chips carry no [disabled] prop and stay enabled. *)
Theorem controls_while_cancellation_in_flight
    respond p (Date : Type) (now : Date) (toISOString : Date -> string) st pre d post :
  trace (handleCancel respond p Date now toISOString st)
  = pre ++ Call (OnCancel d) :: post ->
  let flight := replay apply pre st in
  confirmButton_disabled flight = true
  /\ cancelButton_disabled flight = true
  /\ selectedReason flight = selectedReason st
  /\ otherReason flight = otherReason st
  /\ enabled flight PressClose
  /\ (forall r, In r CANCEL_REASONS -> enabled flight (PressReason r)).
Proof.
  intros Ht flight.
  assert (Hpre : pre = [Write (SetLoading true)]).
  { assert (Hin : In (Call (OnCancel d))
                     (trace (handleCancel respond p Date now toISOString st))).
    { rewrite Ht. apply in_or_app. right. now left. }
    apply cancel_call_inv in Hin. destruct Hin as [_ [H1 H2]].
    revert Ht.
    destruct (respond (OnCancel (cancellationData p Date now toISOString st)))
      as [|error] eqn:Hr.
    - rewrite (handleCancel_resolved respond p Date now toISOString st H1 H2 Hr).
      destruct (respond OnClose); simpl; intros Ht; symmetry in Ht;
        split_trace Ht; reflexivity.
    - rewrite (handleCancel_rejected respond p Date now toISOString st error H1 H2 Hr).
      simpl. intros Ht. symmetry in Ht. split_trace Ht. reflexivity. }
  subst flight. rewrite Hpre. simpl.
  repeat split; auto.
Qed.

Lemma controls_while_cancellation_in_flight_witness :
  trace (handleCancel resolving example_props string example_now (fun d => d)
           example_selected)
  = [Write (SetLoading true)]
    ++ Call (OnCancel (cancellationData example_props string example_now
                         (fun d => d) example_selected))
    :: [ Settle Resolved; Write (SetSelectedReason None); Write (SetOtherReason "");
         Call OnClose; Settle Resolved; Write (SetLoading false) ]
  /\ confirmButton_disabled
       (replay apply [Write (Cb := callback) (SetLoading true)] example_selected) = true.
Proof.
  split; [reflexivity|].
  apply (controls_while_cancellation_in_flight resolving example_props string
           example_now (fun d => d) example_selected
           [Write (SetLoading true)]
           (cancellationData example_props string example_now (fun d => d)
              example_selected)
           [ Settle Resolved; Write (SetSelectedReason None); Write (SetOtherReason "");
             Call OnClose; Settle Resolved; Write (SetLoading false) ]).
  reflexivity.
Defined.

(** X4: selecting a catalog reason other than ['other'] and confirming hands
    [onCancel] that reason's id and label, whatever free text an earlier
    ['other'] selection left behind: the press changes neither the free text
    nor the flag, and the confirm control of the next render is disabled only
    by the flag. *)
Theorem selected_reason_reaches_onCancel
    respond p (Date : Type) (now : Date) (toISOString : Date -> string) st r :
  In r CANCEL_REASONS ->
  id r <> "other" ->
  let st1 := run apply (on_action respond p Date now toISOString st (PressReason r)) st in
  otherReason st1 = otherReason st
  /\ loading st1 = loading st
  /\ confirmButton_disabled st1 = loading st
  /\ In (Call (OnCancel {| reason := Some (id r);
                          reasonText := Some (label r);
                          cancelledBy := if isCustomer p then "customer" else "mechanic";
                          cancelledAt := toISOString now |}))
        (trace (handleCancel respond p Date now toISOString st1)).
Proof.
  intros Hr Hother st1. subst st1. cbn [on_action run trace set snd replay fold_left step apply].
  split; [reflexivity|]. split; [reflexivity|].
  destruct Hr as [<-|[<-|[<-|[<-|[<-|[<-|[]]]]]]]; try (now elim Hother);
    (split;
     [ unfold confirmButton_disabled; cbn [loading]; now destruct (loading st)
     | match goal with
       | |- In _ (trace (handleCancel _ _ _ _ _ ?s)) =>
           exact (cancel_call_issued respond p Date now toISOString s eq_refl eq_refl)
       end ]).
Qed.

Lemma selected_reason_reaches_onCancel_witness :
  In {| id := "vehicle_fixed"; label := "Vehicle Fixed by Other Means" |} CANCEL_REASONS
  /\ "vehicle_fixed" <> "other"
  /\ In (Call (OnCancel {| reason := Some "vehicle_fixed";
                          reasonText := Some "Vehicle Fixed by Other Means";
                          cancelledBy := "customer";
                          cancelledAt := example_now |}))
        (trace (handleCancel resolving example_props string example_now (fun d => d)
                  (run apply
                     (on_action resolving example_props string example_now (fun d => d)
                        example_other
                        (PressReason {| id := "vehicle_fixed";
                                        label := "Vehicle Fixed by Other Means" |}))
                     example_other))).
Proof.
  assert (Hin : In {| id := "vehicle_fixed"; label := "Vehicle Fixed by Other Means" |}
                   CANCEL_REASONS) by (simpl; auto 10).
  split; [exact Hin|]. split; [discriminate|].
  apply (selected_reason_reaches_onCancel resolving example_props string example_now
           (fun d => d) example_other
           {| id := "vehicle_fixed"; label := "Vehicle Fixed by Other Means" |} Hin).
  discriminate.
Defined.

(** X5: with ['other'] selected, a free text made of white space only is
    turned away with the details alert and nothing else happens; any other
    free text is handed to [onCancel] exactly as typed, untrimmed. *)
Theorem other_reason_text_checked_trimmed_passed_raw
    respond p (Date : Type) (now : Date) (toISOString : Date -> string) st text :
  let st1 := apply (SetOtherReason text) (apply (SetSelectedReason (Some "other")) st) in
  let h := handleCancel respond p Date now toISOString st1 in
  if Js.all_white_space text
  then h = (Normal tt,
            [Alert "Error" "Please provide details for your cancellation reason"])
       /\ run apply h st1 = st1
  else In (Call (OnCancel {| reason := Some "other";
                             reasonText := Some text;
                             cancelledBy := if isCustomer p then "customer" else "mechanic";
                             cancelledAt := toISOString now |}))
          (trace h).
Proof.
  intros st1 h.
  assert (H1 : no_reason st1 = false) by reflexivity.
  assert (Htrim : other_without_text st1 = negb (Js.truthy (Js.trim text))) by reflexivity.
  destruct (Js.all_white_space text) eqn:Hws.
  - apply JsFacts.trim_empty in Hws.
    assert (H2 : other_without_text st1 = true) by (now rewrite Htrim, Hws).
    subst h. rewrite (handleCancel_other_without_text respond p Date now toISOString st1 H1 H2).
    split; reflexivity.
  - assert (H2 : other_without_text st1 = false).
    { rewrite Htrim. apply negb_false_iff.
      destruct (Js.trim text) eqn:Ht; [|reflexivity].
      apply JsFacts.trim_empty in Ht. congruence. }
    exact (cancel_call_issued respond p Date now toISOString st1 H1 H2).
Qed.

Lemma example_selected_reachable : reachable example_props example_selected.
Proof.
  exact (reach_setter example_props resolving string example_now (fun d => d)
           initial_state initial_state
           (PressReason {| id := "cost_concerns"; label := "Cost Concerns" |})
           (SetSelectedReason (Some "cost_concerns"))
           (reach_initial _) (reach_initial _)
           ltac:(simpl; tauto) ltac:(simpl; tauto)).
Qed.

(** X6: in every state the modal can reach, the selected reason is [null]
    or one of the six catalog ids; so in every record the modal hands to
    [onCancel] from such a state, [reason] is a catalog id and [reasonText]
    is a string that is not empty. *)
Theorem reachable_record_names_its_reason
    respond p (Date : Type) (now : Date) (toISOString : Date -> string) st data :
  reachable p st ->
  In (Call (OnCancel data)) (trace (handleCancel respond p Date now toISOString st)) ->
  exists r text,
    In r (map id CANCEL_REASONS)
    /\ selectedReason st = Some r
    /\ reason data = Some r
    /\ reasonText data = Some text
    /\ text <> "".
Proof.
  intros Hreach Hin.
  apply reachable_reason_in_catalog in Hreach.
  apply cancel_call_inv in Hin. destruct Hin as [-> [H1 H2]].
  unfold reason_in_catalog in Hreach. unfold other_without_text in H2.
  unfold no_reason in H1.
  unfold cancellationData. cbn [reason reasonText].
  destruct (selectedReason st) as [x|] eqn:Hsel.
  - apply in_map_iff in Hreach. destruct Hreach as [r [<- Hr]].
    rewrite (find_reason_in_catalog r Hr). cbn [strict_eq option_map] in *.
    destruct (id r =? "other")%string eqn:Hother.
    + exists (id r), (otherReason st).
      split; [now apply in_map|]. repeat split.
      intros He. rewrite He in H2. discriminate H2.
    + exists (id r), (label r).
      split; [now apply in_map|]. repeat split.
      destruct Hr as [<-|[<-|[<-|[<-|[<-|[<-|[]]]]]]]; discriminate.
  - discriminate H1.
Qed.

Lemma reachable_record_names_its_reason_witness :
  reachable example_props example_selected
  /\ In (Call (OnCancel (cancellationData example_props string example_now
                           (fun d => d) example_selected)))
        (trace (handleCancel resolving example_props string example_now (fun d => d)
                  example_selected))
  /\ exists r text,
       In r (map id CANCEL_REASONS)
       /\ selectedReason example_selected = Some r
       /\ reason (cancellationData example_props string example_now (fun d => d)
                    example_selected) = Some r
       /\ reasonText (cancellationData example_props string example_now (fun d => d)
                        example_selected) = Some text
       /\ text <> "".
Proof.
  assert (Hin : In (Call (OnCancel (cancellationData example_props string example_now
                                      (fun d => d) example_selected)))
                   (trace (handleCancel resolving example_props string example_now
                             (fun d => d) example_selected))) by (simpl; tauto).
  split; [exact example_selected_reachable|]. split; [exact Hin|].
  exact (reachable_record_names_its_reason resolving example_props string example_now
           (fun d => d) example_selected _ example_selected_reachable Hin).
Defined.

End CancelJobModalExtras.

(** ** PaymentStatusTracker: the history toggle, an unknown status, and the
    in-flight state *)

Module PaymentStatusTrackerExtras.

Import Effects EffectsFacts PaymentStatusTracker PaymentStatusTrackerFacts Scenarios.

(** X7: the history toggle writes the negation of the [showHistory] its
    render saw.  A press, a re-render and a second press give back the state
    before the first; two presses within one render count as one, since both
    closures hold the same [showHistory]. *)
Theorem toggleHistory_twice st :
  let once := run apply (toggleHistory st) st in
  showHistory once = negb (showHistory st)
  /\ loading once = loading st
  /\ selectedStatus once = selectedStatus st
  /\ run apply (toggleHistory once) once = st
  /\ replay apply (trace (toggleHistory st) ++ trace (toggleHistory st)) st = once.
Proof.
  destruct st as [l sel h]. simpl. destruct h; repeat split.
Qed.

(** X8: for a [currentStatus] outside the catalog the badge shows the first
    entry, 'Unpaid', yet the component does not treat the request as unpaid:
    the reminder button is not rendered, no chip is disabled on account of
    the status, and the 'unpaid' chip sends an update to ['unpaid']. *)
Theorem unknown_currentStatus_controls respond p st :
  known (currentStatus p) = false ->
  statusObj p = Some {| id := "unpaid"; label := "Unpaid"; color := "#f44336" |}
  /\ reminderButton p st = None
  /\ (forall s, In s PAYMENT_STATUSES ->
                disabled (statusOption respond p st s) = loading st)
  /\ In (Call (OnUpdateStatus "unpaid"))
        (trace (onPress (statusOption respond p st
                           {| id := "unpaid"; label := "Unpaid"; color := "#f44336" |}))).
Proof.
  destruct p as [rid cur hist mech].
  unfold known, statusObj, find_status, reminderButton, PAYMENT_STATUSES.
  cbn [existsb find id currentStatus isMechanic].
  intros Hk.
  repeat match goal with
         | |- context [String.eqb ?a cur] =>
             destruct (String.eqb_spec a cur);
             [cbn [orb] in Hk; discriminate Hk|]
         end.
  cbn [nth_error].
  split; [reflexivity|]. split.
  - destruct mech; cbn [andb]; [|reflexivity].
    destruct (String.eqb_spec cur "unpaid") as [->|_]; [congruence|].
    destruct (String.eqb_spec cur "partial") as [->|_]; [congruence|].
    reflexivity.
  - split.
    + intros s Hs. cbn [statusOption disabled currentStatus].
      destruct Hs as [<-|[<-|[<-|[<-|[<-|[]]]]]]; cbn [id];
        (match goal with
         | |- context [String.eqb cur ?a] =>
             destruct (String.eqb_spec cur a) as [->|_];
             [congruence | apply orb_false_r]
         end).
    + cbn [statusOption onPress id].
      assert (Hne' : "unpaid" <> currentStatus
                       {| requestId := rid; currentStatus := cur;
                          paymentHistory := hist; isMechanic := mech |})
        by (cbn [currentStatus]; congruence).
      destruct (respond (OnUpdateStatus "unpaid")) as [|error] eqn:Hr.
      * rewrite (handleUpdateStatus_resolved _ _ _ Hne' Hr). simpl. tauto.
      * rewrite (handleUpdateStatus_rejected _ _ _ _ Hne' Hr). simpl. tauto.
Qed.

Lemma unknown_currentStatus_controls_witness :
  known (currentStatus overdue_props) = false
  /\ statusObj overdue_props
     = Some {| id := "unpaid"; label := "Unpaid"; color := "#f44336" |}
  /\ reminderButton overdue_props (initial_state overdue_props) = None.
Proof.
  split; [reflexivity|].
  destruct (unknown_currentStatus_controls resolving overdue_props
              (initial_state overdue_props) eq_refl) as (Hbadge & Hreminder & _).
  split; [exact Hbadge | exact Hreminder].
Defined.

(** X9: at the moment [handleUpdateStatus] calls [onUpdateStatus], and so
    for as long as the call is in flight, every status chip is disabled, the
    reminder button is disabled if it is rendered, the loading overlay is
    shown, and the [selectedStatus] mirror is still the old one. *)
Theorem controls_while_update_in_flight respond respond' p st newStatus pre c post :
  trace (handleUpdateStatus respond p newStatus) = pre ++ Call c :: post ->
  let flight := replay apply pre st in
  c = OnUpdateStatus newStatus
  /\ newStatus <> currentStatus p
  /\ (forall s, disabled (statusOption respond' p flight s) = true)
  /\ (reminderButton p flight = None \/ reminderButton p flight = Some true)
  /\ loadingOverlay flight = true
  /\ selectedStatus flight = selectedStatus st.
Proof.
  intros Ht flight.
  destruct (String.eqb_spec newStatus (currentStatus p)) as [->|Hne].
  { rewrite handleUpdateStatus_same in Ht. simpl in Ht.
    exfalso. exact (app_cons_not_nil _ _ _ Ht). }
  assert (Hpre : pre = [Write (SetLoading true)] /\ c = OnUpdateStatus newStatus).
  { revert Ht. destruct (respond (OnUpdateStatus newStatus)) as [|error] eqn:Hr.
    - rewrite (handleUpdateStatus_resolved _ _ _ Hne Hr). simpl.
      intros Ht. symmetry in Ht. split_trace Ht. now split.
    - rewrite (handleUpdateStatus_rejected _ _ _ _ Hne Hr). simpl.
      intros Ht. symmetry in Ht. split_trace Ht. now split. }
  destruct Hpre as [Hpre Hc]. subst flight. rewrite Hpre.
  split; [exact Hc|]. split; [exact Hne|]. simpl.
  split; [reflexivity|]. split; [|split; reflexivity].
  unfold reminderButton. cbn [loading].
  destruct (isMechanic p && _); auto.
Qed.

Lemma controls_while_update_in_flight_witness :
  trace (handleUpdateStatus resolving example_props "paid")
  = [Write (SetLoading true)]
    ++ Call (OnUpdateStatus "paid")
    :: [Settle Resolved; Write (SetSelectedStatus "paid"); Write (SetLoading false)]
  /\ reminderButton example_props
       (replay apply [Write (Cb := callback) (SetLoading true)]
          (initial_state example_props))
     = Some true.
Proof.
  split; [reflexivity|].
  destruct (controls_while_update_in_flight resolving resolving example_props
              (initial_state example_props) "paid"
              [Write (SetLoading true)] (OnUpdateStatus "paid")
              [Settle Resolved; Write (SetSelectedStatus "paid"); Write (SetLoading false)]
              eq_refl) as (_ & _ & _ & [H|H] & _).
  - discriminate H.
  - exact H.
Defined.

(** X10: the history list is collapsed on mount and is never rendered for an
    empty [paymentHistory], whatever [showHistory] is; one toggle after mount
    renders one row per entry exactly when there is an entry. *)
Theorem history_shown_after_one_toggle (Date : Type) (newDate : string -> Date)
    (toLocaleDateString toLocaleTimeString : Date -> string)
    (toFixed2 : string -> string) p st :
  let render := fun s =>
    historyList p s Date newDate toLocaleDateString toLocaleTimeString toFixed2 in
  let opened := run apply (toggleHistory (initial_state p)) (initial_state p) in
  render (initial_state p) = None
  /\ (render st <> None -> paymentHistory p <> [] /\ showHistory st = true)
  /\ match paymentHistory p with
     | [] => render st = None /\ render opened = None
     | _ :: _ =>
         exists rows, render opened = Some rows
                      /\ length rows = length (paymentHistory p)
     end.
Proof.
  intros render opened. subst render opened. unfold historyList.
  cbn [initial_state showHistory toggleHistory run trace set snd replay fold_left
       step apply negb].
  split; [now rewrite andb_false_r|]. split.
  - destruct (paymentHistory p); simpl; [congruence|].
    destruct (showHistory st); simpl; [|congruence].
    intros _. split; [discriminate | reflexivity].
  - destruct (paymentHistory p) as [|item rest] eqn:Hh; simpl.
    + split; reflexivity.
    + eexists. split; [reflexivity|].
      unfold Js.map_index. simpl. now rewrite JsFacts.length_map_index_from.
Qed.

Lemma history_shown_after_one_toggle_witness :
  historyList example_props example_expanded string (fun d => d)
    example_date_part example_time_part example_toFixed2 <> None
  /\ paymentHistory example_props <> []
  /\ showHistory example_expanded = true.
Proof.
  assert (H : historyList example_props example_expanded string (fun d => d)
                example_date_part example_time_part example_toFixed2 <> None)
    by discriminate.
  split; [exact H|].
  destruct (history_shown_after_one_toggle string (fun d => d)
              example_date_part example_time_part example_toFixed2
              example_props example_expanded) as (_ & Hshown & _).
  exact (Hshown H).
Defined.

End PaymentStatusTrackerExtras.

(** ** Trimming, lower case and white-space runs *)

Module JsTextFacts.

Import Js JsText.

Lemma trimStart_split (s : string) :
  exists pre, s = (pre ++ trimStart s)%string /\ all_white_space pre = true.
Proof.
  induction s as [|c r [pre [Hr Hpre]]]; simpl.
  - exists EmptyString. split; reflexivity.
  - destruct (is_white_space c) eqn:Hc.
    + exists (String c pre). simpl. rewrite Hc, Hpre. split; [now rewrite <- Hr|reflexivity].
    + exists EmptyString. split; reflexivity.
Qed.

Lemma trimEnd_split (s : string) :
  exists post, s = (trimEnd s ++ post)%string /\ all_white_space post = true.
Proof.
  induction s as [|c r [post [Hr Hpost]]]; simpl.
  - exists EmptyString. split; reflexivity.
  - destruct (trimEnd r) as [|c' r'] eqn:Ht.
    + simpl in Hr. subst post. destruct (is_white_space c) eqn:Hc.
      * exists (String c r). simpl. rewrite Hc, Hpost. split; reflexivity.
      * exists r. split; [reflexivity|exact Hpost].
    + exists post. simpl. split; [now rewrite Hr at 1|exact Hpost].
Qed.

Lemma trimEnd_keeps_head (c : ascii) (r : string) :
  is_white_space c = false -> first_char (trimEnd (String c r)) = Some c.
Proof.
  intros Hc. simpl. destruct (trimEnd r); [rewrite Hc|]; reflexivity.
Qed.

Lemma trimEnd_last (s : string) (c : ascii) :
  last_char (trimEnd s) = Some c -> is_white_space c = false.
Proof.
  induction s as [|d r IH]; simpl.
  - discriminate.
  - destruct (trimEnd r) as [|c' r'] eqn:Ht.
    + destruct (is_white_space d) eqn:Hd; simpl; [discriminate|].
      intros H. injection H as <-. exact Hd.
    + intros H. apply IH. exact H.
Qed.

Lemma trim_first (s : string) (c : ascii) :
  first_char (trim s) = Some c -> is_white_space c = false.
Proof.
  unfold trim. destruct (trimStart s) as [|d r] eqn:Hs.
  - discriminate.
  - pose proof (JsFacts.trimStart_head s d r Hs) as Hd.
    rewrite (trimEnd_keeps_head d r Hd). intros H. injection H as <-. exact Hd.
Qed.

Lemma trim_last (s : string) (c : ascii) :
  last_char (trim s) = Some c -> is_white_space c = false.
Proof. unfold trim. apply trimEnd_last. Qed.

Lemma latin1_lower_char_not_upper (c : ascii) :
  is_ascii_upper (latin1_lower_char c) = false.
Proof.
  destruct c as [[] [] [] [] [] [] [] []]; reflexivity.
Qed.

Lemma latin1_lower_no_upper (s : string) :
  forall_chars (fun c => negb (is_ascii_upper c)) (latin1_lower s) = true.
Proof.
  induction s as [|c r IH]; simpl; [reflexivity|].
  now rewrite latin1_lower_char_not_upper, IH.
Qed.

Lemma latin1_lower_keeps_white_space (c : ascii) (r : string) :
  is_white_space c = true ->
  latin1_lower (String c r) = String c (latin1_lower r).
Proof.
  intros Hc. simpl. f_equal. revert Hc. clear.
  destruct c as [[] [] [] [] [] [] [] []]; vm_compute; intros H;
    first [reflexivity | discriminate H].
Qed.

Lemma replace_runs_no_white_space (s : string) :
  forall b, forall_chars (fun c => negb (is_white_space c)) (replace_runs b s) = true.
Proof.
  induction s as [|c r IH]; intros b; simpl; [reflexivity|].
  destruct (is_white_space c) eqn:Hc.
  - destruct b; simpl; apply IH.
  - simpl. now rewrite Hc, IH.
Qed.

Lemma replace_runs_keeps (test : ascii -> bool) (s : string) :
  test "_"%char = true ->
  forall_chars test s = true ->
  forall b, forall_chars test (replace_runs b s) = true.
Proof.
  intros Hu. induction s as [|c r IH]; simpl; [reflexivity|].
  intros H b. apply andb_true_iff in H. destruct H as [Hc Hr].
  destruct (is_white_space c).
  - destruct b; simpl; [|rewrite Hu]; now apply IH.
  - simpl. rewrite Hc. now apply IH.
Qed.

Lemma replace_runs_length (s : string) :
  forall b, String.length (replace_runs b s) <= String.length s.
Proof.
  induction s as [|c r IH]; intros b; simpl; [lia|].
  destruct (is_white_space c); [destruct b|]; simpl;
    match goal with
    | |- context [replace_runs ?x r] => pose proof (IH x)
    end; lia.
Qed.

Lemma substring_prefix (n : nat) (s : string) :
  exists rest, s = (substring 0 n s ++ rest)%string.
Proof.
  revert n. induction s as [|c r IH]; intros n.
  - exists EmptyString. destruct n; reflexivity.
  - destruct n as [|n]; simpl.
    + exists (String c r). reflexivity.
    + destruct (IH n) as [rest Hr]. exists rest. now rewrite Hr at 1.
Qed.

Lemma substring_prefix_length (n : nat) (s : string) :
  String.length (substring 0 n s) = Nat.min n (String.length s).
Proof.
  revert n. induction s as [|c r IH]; intros n.
  - destruct n; reflexivity.
  - destruct n as [|n]; simpl; [reflexivity | now rewrite IH].
Qed.

Lemma append_length (a b : string) :
  String.length (a ++ b)%string = String.length a + String.length b.
Proof. induction a as [|c r IH]; simpl; [reflexivity | now rewrite IH]. Qed.

End JsTextFacts.

(** ** JobStatusManager *)

Module JobStatusManagerFacts.

Import Effects EffectsFacts JobStatusManager.

Ltac case_builtin x :=
  repeat match goal with
         | |- context [String.eqb ?a x] =>
             destruct (String.eqb_spec a x); [subst x|]
         end.

(** X11: built-in statuses come first in the merged catalog.  Looking up a
    built-in id gives the built-in definition whatever the custom list holds,
    so a custom status that reuses a built-in id is never displayed; any
    other id gives the first custom status with that id, if there is one; and
    the badge always has a definition. *)
Theorem builtin_statuses_shadow_custom p x :
  (exists d, statusObj p = Some d)
  /\ if existsb (fun s => (id s =? x)%string) DEFAULT_STATUSES
     then exists d, In d DEFAULT_STATUSES /\ id d = x /\ find_status p x = Some d
     else find_status p x = find (fun s => (id s =? x)%string) (customStatuses p).
Proof.
  split.
  - unfold statusObj, find_status, allStatuses, DEFAULT_STATUSES.
    cbn [app find id nth_error].
    generalize (currentStatus p) as cur. intros cur.
    case_builtin cur; eauto.
    destruct (find _ (customStatuses p)); eauto.
  - unfold find_status, allStatuses, DEFAULT_STATUSES.
    cbn [app find existsb id].
    case_builtin x; cbn [orb In]; eauto 12.
Qed.

Lemma job_handleUpdateStatus_same respond p :
  handleUpdateStatus respond p (currentStatus p) = (Normal tt, []).
Proof. unfold handleUpdateStatus. now rewrite String.eqb_refl. Qed.

Lemma job_handleUpdateStatus_other respond p newStatus :
  newStatus <> currentStatus p ->
  handleUpdateStatus respond p newStatus
  = (Normal tt,
     [ Write (SetLoading true); Call (OnUpdateStatus newStatus) ]
     ++ match respond (OnUpdateStatus newStatus) with
        | Resolved => [ Settle Resolved ]
        | Rejected error =>
            [ Settle (Rejected error);
              ConsoleError "Error updating job status:" error;
              Alert "Error" "Failed to update job status" ]
        end
     ++ [ Write (SetLoading false) ]).
Proof.
  intros Hne. unfold handleUpdateStatus.
  destruct (String.eqb_spec newStatus (currentStatus p)) as [Heq|_]; [contradiction|].
  unfold call. destruct (respond (OnUpdateStatus newStatus)); reflexivity.
Qed.

Lemma map_key_statusOption respond p st (l : list status_def) :
  map key (map (statusOption respond p st) l) = map id l.
Proof. induction l as [|s r IH]; simpl; [reflexivity | now rewrite IH]. Qed.

Lemma map_filter_id (l : list status_def) :
  map id (filter (fun s => negb (id s =? "cancelled")%string) l)
  = filter (fun k => negb (k =? "cancelled")%string) (map id l).
Proof.
  induction l as [|s r IH]; simpl; [reflexivity|].
  destruct (id s =? "cancelled")%string; simpl; now rewrite IH.
Qed.

(** X12: the status selector leaves out every status whose id is
    ['cancelled'], built-in or custom, and keeps all others in catalog order;
    so no chip can send an update to ['cancelled']. *)
Theorem cancelled_is_never_selectable respond p st chips :
  statusOptions respond p st = Some chips ->
  map key chips
  = filter (fun k => negb (k =? "cancelled")%string) (map id (allStatuses p))
  /\ (forall chip,
        In chip chips ->
        key chip <> "cancelled"
        /\ ~ In (Call (OnUpdateStatus "cancelled")) (trace (onPress chip))).
Proof.
  unfold statusOptions. destruct (isMechanic p); [|discriminate].
  intros H.
  assert (Hc : chips = map (statusOption respond p st) (selectable p)) by congruence.
  clear H. subst chips. split.
  - rewrite map_key_statusOption. apply map_filter_id.
  - intros chip Hin. apply in_map_iff in Hin. destruct Hin as [s [<- Hs]].
    apply filter_In in Hs. destruct Hs as [_ Hs].
    apply negb_true_iff in Hs. apply String.eqb_neq in Hs.
    split; [exact Hs|]. cbn [statusOption onPress].
    destruct (String.eqb_spec (id s) (currentStatus p)) as [Heq|Hne].
    + rewrite Heq, job_handleUpdateStatus_same. intros [].
    + rewrite (job_handleUpdateStatus_other respond p (id s) Hne).
      intros Hin. cbn [trace snd app In] in Hin.
      destruct Hin as [Hin|[Hin|Hin]]; [discriminate Hin| |].
      * injection Hin as Hin. congruence.
      * apply in_app_or in Hin. destruct Hin as [Hin|[Hin|[]]]; [|discriminate Hin].
        destruct (respond (OnUpdateStatus (id s)));
          simpl in Hin; intuition discriminate.
Qed.

Lemma cancelled_is_never_selectable_witness :
  statusOptions resolving_all example_props initial_state
  = Some (map (statusOption resolving_all example_props initial_state)
            (selectable example_props))
  /\ map key (map (statusOption resolving_all example_props initial_state)
                (selectable example_props))
     = [ "pending"; "quoted"; "accepted"; "in_progress"; "parts_needed"; "completed";
         "towed"; "quoted" ].
Proof.
  split; [reflexivity|].
  destruct (cancelled_is_never_selectable resolving_all example_props initial_state
              _ eq_refl) as [Hkeys _].
  exact Hkeys.
Defined.

(** X13: [JobStatusManager.handleUpdateStatus] keeps no local copy of the
    status.  For a status other than the current one it calls
    [onUpdateStatus] once, under the loading flag, and leaves the state as it
    was but for the flag, which ends cleared; the failure alert appears
    exactly when the callback rejects. *)
Theorem job_status_update_changes_only_the_flag respond p st newStatus :
  newStatus <> currentStatus p ->
  let h := handleUpdateStatus respond p newStatus in
  result h = Normal tt
  /\ (exists rest,
        trace h = Write (SetLoading true) :: Call (OnUpdateStatus newStatus)
                  :: Settle (respond (OnUpdateStatus newStatus)) :: rest
        /\ forall c, ~ In (Call c) rest)
  /\ run apply h st = apply (SetLoading false) st
  /\ (In (Alert "Error" "Failed to update job status") (trace h)
      <-> exists error, respond (OnUpdateStatus newStatus) = Rejected error).
Proof.
  intros Hne h. subst h. rewrite (job_handleUpdateStatus_other respond p newStatus Hne).
  destruct st as [l sh sm nl nd nc].
  destruct (respond (OnUpdateStatus newStatus)) as [|error]; simpl.
  - split; [reflexivity|]. split.
    + eexists. split; [reflexivity|]. intros c [H|[]]. discriminate H.
    + split; [reflexivity|]. split.
      * intros [H|[H|[H|[H|[]]]]]; discriminate H.
      * intros [error H]. discriminate H.
  - split; [reflexivity|]. split.
    + eexists. split; [reflexivity|]. intros c [H|[H|[H|[]]]]; discriminate H.
    + split; [reflexivity|]. split; [eauto | tauto].
Qed.

Lemma job_status_update_changes_only_the_flag_witness :
  "accepted" <> currentStatus example_props
  /\ run apply (handleUpdateStatus resolving_all example_props "accepted") example_typing
     = apply (SetLoading false) example_typing.
Proof.
  split; [discriminate|].
  apply (job_status_update_changes_only_the_flag resolving_all example_props
           example_typing "accepted").
  discriminate.
Defined.

(** X14: adding a custom status persists nothing.  [handleAddCustomStatus]
    calls no callback; for a label that is blank after trimming it shows the
    label-required alert and changes nothing; otherwise it closes the modal,
    puts the three form fields back to their initial values, ends with the
    flag clear and announces the status as created. *)
Theorem add_custom_status_only_resets_the_form (toLowerCase : string -> string) st :
  let h := handleAddCustomStatus toLowerCase st in
  (forall c, ~ In (Call c) (trace h))
  /\ result h = Normal tt
  /\ if Js.all_white_space (newStatusLabel st)
     then h = (Normal tt, [Alert "Error" "Status label is required"])
          /\ run apply h st = st
          /\ addButton_disabled st = true
     else run apply h st
          = {| loading := false; showHistory := showHistory st;
               showAddStatusModal := false; newStatusLabel := "";
               newStatusDescription := ""; newStatusColor := "#2196f3" |}
          /\ In (Alert "Custom Status Created"
                   "In the full implementation, this would save the custom status to your account.")
                (trace h)
          /\ addButton_disabled st = loading st.
Proof.
  intros h. subst h. unfold handleAddCustomStatus, addButton_disabled.
  destruct (Js.all_white_space (newStatusLabel st)) eqn:Hws.
  - apply JsFacts.trim_empty in Hws. rewrite Hws. simpl.
    split; [intros c [H|[]]; discriminate H|]. repeat split.
  - assert (Ht : Js.truthy (Js.trim (newStatusLabel st)) = true).
    { destruct (Js.trim (newStatusLabel st)) eqn:Ht; [|reflexivity].
      apply JsFacts.trim_empty in Ht. congruence. }
    rewrite Ht. simpl.
    split; [intros c H; repeat (destruct H as [H|H]; [discriminate H|]); exact H|].
    split; [reflexivity|]. split; [reflexivity|]. split; [tauto|reflexivity].
Qed.

(** X15: the id generated for a custom status holds no white space,
    whatever the platform's [toLowerCase] is, and no letter A-Z given that
    [toLowerCase] returns none.  It is made from the label as typed: given
    that [toLowerCase] leaves a leading white-space code unit in place, a
    label that starts with white space gets an id that starts with an
    underscore, while the stored label is the trimmed one and starts and ends
    with no white space. *)
Theorem generated_status_id_shape (toLowerCase : string -> string) st :
  let s := newStatus toLowerCase st in
  JsText.forall_chars (fun c => negb (Js.is_white_space c)) (new_id s) = true
  /\ ((forall t, JsText.forall_chars (fun c => negb (JsText.is_ascii_upper c))
                   (toLowerCase t) = true) ->
      JsText.forall_chars (fun c => negb (JsText.is_ascii_upper c)) (new_id s) = true)
  /\ ((forall c r, Js.is_white_space c = true ->
                   toLowerCase (String c r) = String c (toLowerCase r)) ->
      forall c, JsText.first_char (newStatusLabel st) = Some c ->
                Js.is_white_space c = true ->
                JsText.first_char (new_id s) = Some "_"%char)
  /\ (forall c, JsText.first_char (new_label s) = Some c -> Js.is_white_space c = false)
  /\ (forall c, JsText.last_char (new_label s) = Some c -> Js.is_white_space c = false).
Proof.
  intros s. subst s. unfold newStatus. cbn [new_id new_label].
  unfold JsText.replace_white_space.
  split; [apply JsTextFacts.replace_runs_no_white_space|].
  split.
  { intros Hlower. apply JsTextFacts.replace_runs_keeps; [reflexivity | apply Hlower]. }
  split.
  { intros Hkeep c Hc Hws. destruct (newStatusLabel st) as [|d r]; [discriminate Hc|].
    injection Hc as ->. rewrite (Hkeep c r Hws). simpl. now rewrite Hws. }
  split; [apply JsTextFacts.trim_first | apply JsTextFacts.trim_last].
Qed.

Lemma generated_status_id_shape_witness :
  (forall t, JsText.forall_chars (fun c => negb (JsText.is_ascii_upper c))
               (JsText.latin1_lower t) = true)
  /\ (forall c r, Js.is_white_space c = true ->
                  JsText.latin1_lower (String c r) = String c (JsText.latin1_lower r))
  /\ JsText.first_char (newStatusLabel example_typing) = Some " "%char
  /\ Js.is_white_space " "%char = true
  /\ new_id (newStatus JsText.latin1_lower example_typing) = "_awaiting_tow_"
  /\ new_label (newStatus JsText.latin1_lower example_typing) = "Awaiting  Tow"
  /\ JsText.forall_chars (fun c => negb (JsText.is_ascii_upper c))
       (new_id (newStatus JsText.latin1_lower example_typing)) = true
  /\ JsText.first_char (new_id (newStatus JsText.latin1_lower example_typing))
     = Some "_"%char.
Proof.
  split; [exact JsTextFacts.latin1_lower_no_upper|].
  split; [exact JsTextFacts.latin1_lower_keeps_white_space|].
  split; [reflexivity|]. split; [reflexivity|]. split; [reflexivity|].
  split; [reflexivity|].
  destruct (generated_status_id_shape JsText.latin1_lower example_typing)
    as (_ & Hupper & Hhead & _).
  split.
  - exact (Hupper JsTextFacts.latin1_lower_no_upper).
  - exact (Hhead JsTextFacts.latin1_lower_keeps_white_space " "%char eq_refl eq_refl).
Defined.

End JobStatusManagerFacts.

(** ** MechanicNotes *)

Module MechanicNotesFacts.

Import Effects EffectsFacts MechanicNotes.

(** X16: a note of at most 100 code units is shown whole and has no expand
    control.  A longer note has the control; while collapsed it is shown as
    its first 100 code units followed by three dots, 103 code units in all,
    and while expanded it is shown whole. *)
Theorem long_notes_are_cut_at_100 p (Date : Type) (newDate : string -> Date)
    (toLocaleDateString toLocaleTimeString : Date -> string) st item :
  let v := renderNote p Date newDate toLocaleDateString toLocaleTimeString st item in
  if String.length (text item) <=? 100
  then displayText v = text item /\ expandButton v = None
  else (exists caption,
           expandButton v = Some (caption, toggleNoteExpansion st (id item)))
       /\ if isExpanded st item
          then displayText v = text item
          else String.length (displayText v) = 103
               /\ exists head rest,
                    String.length head = 100
                    /\ text item = (head ++ rest)%string
                    /\ displayText v = (head ++ "...")%string.
Proof.
  intros v. subst v. unfold renderNote. cbn [displayText expandButton].
  destruct (String.length (text item) <=? 100) eqn:Hle.
  - apply Nat.leb_le in Hle.
    assert (Hlt : (100 <? String.length (text item)) = false)
      by (apply Nat.ltb_ge; exact Hle).
    rewrite Hlt. split; reflexivity.
  - apply Nat.leb_gt in Hle.
    assert (Hlt : (100 <? String.length (text item)) = true)
      by (apply Nat.ltb_lt; exact Hle).
    rewrite Hlt. split; [eauto|].
    destruct (isExpanded st item); cbn [negb andb]; [reflexivity|].
    assert (Hhead : String.length (substring 0 100 (text item)) = 100).
    { rewrite JsTextFacts.substring_prefix_length. lia. }
    split.
    + rewrite JsTextFacts.append_length, Hhead. reflexivity.
    + destruct (JsTextFacts.substring_prefix 100 (text item)) as [rest Hrest].
      exists (substring 0 100 (text item)), rest. repeat split; assumption.
Qed.

(** X17: at most one note is expanded at a time.  Toggling a note flips that
    note and collapses every other one. *)
Theorem one_note_expanded_at_a_time st x (a b : note) :
  let st1 := run apply (toggleNoteExpansion st x) st in
  (isExpanded st a = true -> isExpanded st b = true -> id a = id b)
  /\ (id a = x -> isExpanded st1 a = negb (isExpanded st a))
  /\ (id a <> x -> isExpanded st1 a = false)
  /\ newNote st1 = newNote st
  /\ loading st1 = loading st.
Proof.
  intros st1. subst st1. unfold isExpanded, toggleNoteExpansion.
  cbn [run trace set snd replay fold_left step apply expandedNoteId newNote loading].
  destruct (expandedNoteId st) as [e|]; cbn [strict_eq].
  - split.
    + intros Ha Hb. apply String.eqb_eq in Ha. apply String.eqb_eq in Hb. congruence.
    + split; [|split; [|split; reflexivity]].
      * intros <-. destruct (String.eqb_spec e (id a)) as [->|Hne]; cbn [strict_eq negb].
        -- reflexivity.
        -- apply String.eqb_refl.
      * intros Hne. destruct (String.eqb_spec e x) as [->|_]; cbn [strict_eq].
        -- reflexivity.
        -- apply String.eqb_neq. congruence.
  - split; [discriminate|].
    split; [|split; [|split; reflexivity]].
    + intros <-. cbn [negb]. apply String.eqb_refl.
    + intros Hne. apply String.eqb_neq. congruence.
Qed.

Lemma one_note_expanded_at_a_time_witness :
  id example_long_note = "n1"
  /\ isExpanded (run apply (toggleNoteExpansion initial_state "n1") initial_state)
       example_long_note = true
  /\ "n2" <> "n1"
  /\ isExpanded
       (run apply
          (toggleNoteExpansion
             (run apply (toggleNoteExpansion initial_state "n1") initial_state) "n2")
          (run apply (toggleNoteExpansion initial_state "n1") initial_state))
       example_long_note = false.
Proof.
  split; [reflexivity|]. split.
  - destruct (one_note_expanded_at_a_time initial_state "n1"
                example_long_note example_long_note) as (_ & H & _).
    exact (H eq_refl).
  - split; [discriminate|].
    destruct (one_note_expanded_at_a_time
                (run apply (toggleNoteExpansion initial_state "n1") initial_state)
                "n2" example_long_note example_long_note) as (_ & _ & H & _).
    apply H. discriminate.
Defined.

(** X18: [handleAddNote] turns a draft that is blank after trimming away
    with an alert and no call.  Otherwise it calls [onAddNote] with the
    trimmed draft, which is not empty and neither starts nor ends with white
    space.  The draft is cleared only when the call resolves to a truthy
    value; when it resolves to a falsy one the draft stays and no alert at
    all is shown; when it rejects the draft stays and the failure alert is
    shown.  The flag ends cleared in each case. *)
Theorem add_note_outcomes respond added (Date : Type) (now : Date)
    (toISOString : Date -> string) st :
  let h := handleAddNote respond added Date now toISOString st in
  let data := noteData Date now toISOString st in
  if Js.all_white_space (newNote st)
  then h = (Normal tt, [Alert "Error" "Note cannot be empty"])
  else In (Call (OnAddNote data)) (trace h)
       /\ new_text data <> ""
       /\ (forall c, JsText.first_char (new_text data) = Some c ->
                     Js.is_white_space c = false)
       /\ (forall c, JsText.last_char (new_text data) = Some c ->
                     Js.is_white_space c = false)
       /\ loading (run apply h st) = false
       /\ match respond (OnAddNote data) with
          | Resolved =>
              if added data
              then newNote (run apply h st) = ""
                   /\ forall title message, ~ In (Alert title message) (trace h)
              else newNote (run apply h st) = newNote st
                   /\ forall title message, ~ In (Alert title message) (trace h)
          | Rejected error =>
              newNote (run apply h st) = newNote st
              /\ In (Alert "Error" "Failed to add note") (trace h)
          end.
Proof.
  intros h data. subst h data. unfold handleAddNote.
  destruct (Js.all_white_space (newNote st)) eqn:Hws.
  - apply JsFacts.trim_empty in Hws. now rewrite Hws.
  - assert (Hne : Js.trim (newNote st) <> "").
    { intros Ht. apply JsFacts.trim_empty in Ht. congruence. }
    assert (Ht : Js.truthy (Js.trim (newNote st)) = true).
    { destruct (Js.trim (newNote st)); [now elim Hne | reflexivity]. }
    rewrite Ht. cbn [negb]. unfold call. cbn [noteData new_text].
    split.
    { destruct (respond _); [destruct (added _)|]; simpl; tauto. }
    split; [exact Hne|].
    split; [apply JsTextFacts.trim_first|].
    split; [apply JsTextFacts.trim_last|].
    split.
    { destruct (respond _); [destruct (added _)|]; reflexivity. }
    destruct (respond _) as [|error]; [destruct (added _)|]; simpl.
    + split; [reflexivity|].
      intros title message H.
      repeat (destruct H as [H|H]; [discriminate H|]). exact H.
    + split; [reflexivity|].
      intros title message H.
      repeat (destruct H as [H|H]; [discriminate H|]). exact H.
    + split; [reflexivity|tauto].
Qed.

(** X19: the trash control deletes nothing by itself: [handleDeleteNote]
    only opens the dialog, calling nothing and writing no state.  The dialog
    has exactly two buttons: Cancel, which runs nothing, and Delete, whose
    press calls [onDeleteNote] with the note's id, once, under the loading
    flag, ends with the flag clear and shows the failure alert exactly when
    the call rejects. *)
Theorem delete_needs_confirmation respond noteId :
  handleDeleteNote noteId
  = (Normal tt,
     [Alert "Delete Note"
        "Are you sure you want to delete this note? This action cannot be undone."])
  /\ (forall c, ~ In (Call c) (trace (handleDeleteNote noteId)))
  /\ (forall w, ~ In (Write w) (trace (handleDeleteNote noteId)))
  /\ exists h rest,
       deleteDialog_buttons respond noteId
       = [ {| button_text := "Cancel"; button_style := "cancel";
              button_onPress := None |};
           {| button_text := "Delete"; button_style := "destructive";
              button_onPress := Some h |} ]
       /\ result h = Normal tt
       /\ trace h = Write (SetLoading true) :: Call (OnDeleteNote noteId)
                    :: Settle (respond (OnDeleteNote noteId))
                    :: rest ++ [Write (SetLoading false)]
       /\ (forall c, ~ In (Call c) rest)
       /\ (forall w, ~ In (Write w) rest)
       /\ (forall st, loading (replay apply [Write (Cb := callback) (SetLoading true)] st)
                      = true
                      /\ run apply h st = apply (SetLoading false) st)
       /\ (In (Alert "Error" "Failed to delete note") (trace h)
           <-> exists error, respond (OnDeleteNote noteId) = Rejected error).
Proof.
  split; [reflexivity|].
  split; [intros c [H|[]]; discriminate H|].
  split; [intros w [H|[]]; discriminate H|].
  exists (confirmDelete respond noteId).
  unfold deleteDialog_buttons, confirmDelete, call.
  destruct (respond (OnDeleteNote noteId)) as [|error].
  - exists []. split; [reflexivity|]. split; [reflexivity|]. split; [reflexivity|].
    split; [intros c []|]. split; [intros w []|].
    split; [intros [n l e]; split; reflexivity|]. split.
    + intros H. simpl in H. repeat (destruct H as [H|H]; [discriminate H|]). destruct H.
    + intros [error H]. discriminate H.
  - exists [ConsoleError "Error deleting note:" error;
            Alert "Error" "Failed to delete note"].
    split; [reflexivity|]. split; [reflexivity|]. split; [reflexivity|].
    split; [intros c [H|[H|[]]]; discriminate H|].
    split; [intros w [H|[H|[]]]; discriminate H|].
    split; [intros [n l e]; split; reflexivity|].
    split; [eauto|]. intros _. simpl. tauto.
Qed.

(** Deleting note ['n1'] with a parent that accepts: the Delete button's
    press is the run set-flag, call, clear-flag. *)
Lemma delete_needs_confirmation_witness :
  exists h,
    nth_error (deleteDialog_buttons resolving "n1") 1
    = Some {| button_text := "Delete"; button_style := "destructive";
              button_onPress := Some h |}
    /\ trace h = [ Write (SetLoading true); Call (OnDeleteNote "n1"); Settle Resolved;
                   Write (SetLoading false) ]
    /\ ~ In (Alert "Error" "Failed to delete note") (trace h).
Proof.
  destruct (delete_needs_confirmation resolving "n1")
    as (_ & _ & _ & h & rest & Hbuttons & _ & Htrace & _ & _ & _ & Halert).
  exists h. rewrite Hbuttons. split; [reflexivity|].
  assert (Hh : h = confirmDelete resolving "n1").
  { change (deleteDialog_buttons resolving "n1")
      with [ {| button_text := "Cancel"; button_style := "cancel";
                button_onPress := None |};
             {| button_text := "Delete"; button_style := "destructive";
                button_onPress := Some (confirmDelete resolving "n1") |} ] in Hbuttons.
    injection Hbuttons as Hb. symmetry. exact Hb. }
  split.
  - rewrite Hh. reflexivity.
  - intros Hin. apply Halert in Hin. destruct Hin as [error He]. discriminate He.
Defined.

End MechanicNotesFacts.

(** ** RatingReviewForm *)

Module RatingReviewFormFacts.

Import Effects EffectsFacts RatingReviewForm.

(** X20: the star row shows the rating: as many stars are filled as the
    rating says, five at most.  Pressing star [n] makes the rating [n]; the
    next render fills exactly [n] stars, and its submit control is disabled
    only by the loading flag. *)
Theorem stars_show_the_rating st n :
  In n [1; 2; 3; 4; 5] ->
  let st1 := run apply (star_onPress (star st n)) st in
  length (filter filled (stars st)) = Nat.min (rating st) 5
  /\ rating st1 = n
  /\ comment st1 = comment st
  /\ length (filter filled (stars st1)) = n
  /\ submitButton_disabled st1 = isLoading st.
Proof.
  intros Hn st1. subst st1. split.
  - unfold stars, star. cbn [map filter filled].
    destruct (rating st) as [|[|[|[|[|[|k]]]]]]; reflexivity.
  - cbn [star star_onPress run trace set snd replay fold_left step apply
         rating comment isLoading].
    split; [reflexivity|]. split; [reflexivity|].
    unfold submitButton_disabled. cbn [rating isLoading].
    destruct Hn as [<-|[<-|[<-|[<-|[<-|[]]]]]]; (split; [reflexivity|]);
      apply orb_false_r.
Qed.

Lemma stars_show_the_rating_witness :
  In 3 [1; 2; 3; 4; 5]
  /\ length (filter filled (stars example_filled)) = 4
  /\ length (filter filled
               (stars (run apply (star_onPress (star example_filled 3)) example_filled)))
     = 3.
Proof.
  split; [simpl; tauto|].
  destruct (stars_show_the_rating example_filled 3) as (H1 & _ & _ & H2 & _).
  - simpl; tauto.
  - split; [exact H1 | exact H2].
Defined.

(** X21: [handleSubmit] without a rating shows the select-a-rating alert and
    calls nothing.  With a rating it calls [submitReview] with the ids of the
    props and the rating and comment of the form, and never resets the rating
    or the comment: the state it leaves is the one it found, with the flag
    clear.  When the service rejects, neither the success alert nor
    [onReviewSubmitted] nor [onClose] happens.  When it resolves, the success
    alert is shown and [onReviewSubmitted] is called; if that call throws,
    the modal is not closed and the failure alert follows the success alert;
    if not, [onClose] is called. *)
Theorem review_submission_outcomes respond p st :
  let h := handleSubmit respond p st in
  let data :=
    {| review_jobId := jobId p; review_customerId := customerId p;
       review_mechanicId := mechanicId p; review_rating := rating st;
       review_comment := comment st |} in
  let succeeded := Alert (Wr := setter) (Cb := callback)
                     "Success" "Your review has been submitted!" in
  let failed := Alert (Wr := setter) (Cb := callback)
                  "Error" "Failed to submit review. Please try again." in
  if rating st =? 0
  then h = (Normal tt, [Alert "Error" "Please select a star rating."])
  else In (Call (SubmitReview data)) (trace h)
       /\ (forall w, In (Write w) (trace h) -> exists b, w = SetIsLoading b)
       /\ run apply h st = apply (SetIsLoading false) st
       /\ match respond (SubmitReview data) with
          | Rejected _ =>
              ~ In succeeded (trace h)
              /\ ~ In (Call OnReviewSubmitted) (trace h)
              /\ ~ In (Call OnClose) (trace h)
              /\ In failed (trace h)
          | Resolved =>
              In succeeded (trace h)
              /\ In (Call OnReviewSubmitted) (trace h)
              /\ match respond OnReviewSubmitted with
                 | Rejected _ => ~ In (Call OnClose) (trace h) /\ In failed (trace h)
                 | Resolved =>
                     In (Call OnClose) (trace h)
                     /\ (In failed (trace h)
                         <-> exists error, respond OnClose = Rejected error)
                 end
          end.
Proof.
  intros h data succeeded failed. subst h succeeded failed.
  unfold handleSubmit. destruct (rating st =? 0); [reflexivity|].
  unfold call, reviewData. fold data.
  destruct st as [r c l].
  destruct (respond (SubmitReview data)) as [|e1];
    [destruct (respond OnReviewSubmitted) as [|e2];
     [destruct (respond OnClose) as [|e3] eqn:Hclose|]|];
    simpl;
    (split; [tauto|]);
    (split;
     [ intros w H; repeat (destruct H as [H|H];
                           [try discriminate H; injection H as <-; eauto|]);
       destruct H
     |]);
    (split; [reflexivity|]).
  - split; [tauto|]. split; [tauto|]. split; [tauto|]. split.
    + intros H. repeat (destruct H as [H|H]; [discriminate H|]). destruct H.
    + intros [error H]. discriminate H.
  - split; [tauto|]. split; [tauto|]. split; [tauto|]. split; [eauto|tauto].
  - split; [tauto|]. split; [tauto|]. split; [|tauto].
    intros H. repeat (destruct H as [H|H]; [discriminate H|]). destruct H.
  - split; [|split; [|split; [|tauto]]];
      intros H; repeat (destruct H as [H|H]; [discriminate H|]); destruct H.
Qed.

End RatingReviewFormFacts.

(** ** LicensePlateCapture *)

Module LicensePlateCaptureFacts.

Import Effects EffectsFacts LicensePlateCapture.

(** X22: [handleCapture] never leaves the flow in the processing step.
    While the service call is in flight the step is ['processing'] and the
    flag is set; afterwards the flag is clear and the step is ['results']
    exactly when the service resolved to a result, whose plate, image and
    details are then stored; when it resolved to [null] or rejected, the step
    is back to ['capture'] and the stored capture is what it was.  After a
    rejection the handler shows an error alert with a text that is not empty
    and completes normally, unless the rejection value is [null] or
    [undefined]: then reading its message raises, no alert is shown, and the
    handler itself rejects, with the step and the flag put back all the
    same. *)
Theorem capture_settles_in_capture_or_results respond message_of captured st method :
  let h := handleCapture respond message_of captured method in
  let st' := run apply h st in
  let flight := replay apply [Write (Cb := callback) (SetLoading true);
                              Write (SetStep "processing")] st in
  (exists post,
      trace h = [Write (SetLoading true); Write (SetStep "processing")]
                ++ Call (ProcessLicensePlateCapture method) :: post)
  /\ loading flight = true
  /\ step flight = "processing"
  /\ loading st' = false
  /\ step st' <> "processing"
  /\ match respond (ProcessLicensePlateCapture method), captured method with
     | Resolved, Some found =>
         result h = Normal tt
         /\ step st' = "results"
         /\ vehicleInfo st' = Some found
         /\ extractedPlate st' = licensePlate found
         /\ capturedImage st' = imageUri found
     | Resolved, None =>
         result h = Normal tt
         /\ st' = apply (SetLoading false) (apply (SetStep "capture") st)
         /\ In (Alert "Cancelled" "License plate capture was cancelled.") (trace h)
     | Rejected error, _ =>
         st' = apply (SetLoading false) (apply (SetStep "capture") st)
         /\ match message_of error with
            | Raises =>
                (exists thrown, result h = Thrown thrown)
                /\ forall title text, ~ In (Alert title text) (trace h)
            | Reads message =>
                result h = Normal tt
                /\ exists text, In (Alert "Error" text) (trace h) /\ text <> ""
            end
     end.
Proof.
  intros h st' flight. subst h st' flight. unfold handleCapture, call, throw.
  destruct st as [l img plate info stp].
  destruct (respond (ProcessLicensePlateCapture method)) as [|error].
  - destruct (captured method) as [found|].
    + destruct (Js.truthy_opt (year found) && Js.truthy_opt (make found)
                && Js.truthy_opt (model found)); simpl;
        (split; [eauto|]); repeat split; discriminate.
    + simpl. split; [eauto|]. repeat split; try discriminate. tauto.
  - simpl. destruct (message_of error) as [|message]; simpl.
    + split; [eauto|].
      split; [reflexivity|]. split; [reflexivity|]. split; [reflexivity|].
      split; [discriminate|].
      destruct (captured method); (split; [reflexivity|]);
        (split; [eauto|]);
        intros title text H;
        repeat (destruct H as [H|H]; [discriminate H|]); exact H.
    + split; [eauto|].
      split; [reflexivity|]. split; [reflexivity|]. split; [reflexivity|].
      split; [discriminate|].
      destruct (captured method); (split; [reflexivity|]);
        (split; [reflexivity|]);
        (exists (Js.or_else message
                   "Failed to process license plate. Please try again.");
         split; [tauto|]);
        (destruct message as [[|? ?]|]; simpl; discriminate).
Qed.

(** A service that rejects with [undefined]: the handler rejects and shows
    no alert, with the step back at ['capture'] and the flag clear. *)
Lemma capture_settles_in_capture_or_results_witness :
  let h := handleCapture rejecting_with_undefined undefined_has_no_message
             (fun _ => None) "camera" in
  (exists thrown, result h = Thrown thrown)
  /\ (forall title text, ~ In (Alert title text) (trace h))
  /\ step (run apply h initial_state) = "capture"
  /\ loading (run apply h initial_state) = false.
Proof.
  destruct (capture_settles_in_capture_or_results rejecting_with_undefined
              undefined_has_no_message (fun _ => None) initial_state "camera")
    as (_ & _ & _ & Hflag & _ & Hstate & Hthrown & Halert).
  split; [exact Hthrown|]. split; [exact Halert|].
  split; [now rewrite Hstate | exact Hflag].
Defined.

(** X23: Try Again and the close controls forget the capture.  Both leave
    the image, the plate and the vehicle details empty and the step at
    ['capture'] whatever the state was, and do not touch the loading flag;
    [handleRetry] calls nothing, [handleClose] calls [onClose] once, after
    the reset. *)
Theorem retry_and_close_forget_the_capture respond st :
  let cleared :=
    {| loading := loading st; capturedImage := None; extractedPlate := Some "";
       vehicleInfo := None; step := "capture" |} in
  run apply handleRetry st = cleared
  /\ run apply (handleClose respond) st = cleared
  /\ (forall c, ~ In (Call c) (trace handleRetry))
  /\ trace (handleClose respond)
     = trace handleRetry ++ [Call OnClose; Settle (respond OnClose)]
  /\ rendered_step cleared = Some "capture".
Proof.
  intros cleared. subst cleared. unfold handleClose, handleRetry, call.
  destruct (respond OnClose); simpl; repeat split;
    intros c H; repeat (destruct H as [H|H]; [discriminate H|]); exact H.
Qed.

(** X24: Use This Vehicle hands the stored details to [onVehicleFound] only
    when there are details and the parent gave the callback, and then
    closes as [handleClose] does.  Without details or without the callback
    it just closes.  If [onVehicleFound] throws, nothing is reset and
    [onClose] is not called. *)
Theorem use_vehicle_reports_then_closes respond p st :
  let h := handleUseVehicle respond p st in
  match vehicleInfo st with
  | Some info =>
      if has_onVehicleFound p
      then match respond (OnVehicleFound info) with
           | Resolved =>
               trace h = [Call (OnVehicleFound info); Settle Resolved]
                         ++ trace (handleClose respond)
               /\ run apply h st = run apply (handleClose respond) st
           | Rejected error =>
               h = (Thrown error, [Call (OnVehicleFound info); Settle (Rejected error)])
               /\ run apply h st = st
           end
      else h = handleClose respond
  | None => h = handleClose respond
  end.
Proof.
  intros h. subst h. unfold handleUseVehicle, handleClose, call.
  destruct (vehicleInfo st) as [info|].
  - destruct (has_onVehicleFound p).
    + destruct (respond (OnVehicleFound info)); [|split; reflexivity].
      destruct (respond OnClose); split; reflexivity.
    + destruct (respond OnClose); reflexivity.
  - destruct (respond OnClose); reflexivity.
Qed.

End LicensePlateCaptureFacts.
